(** * Better-HR: the CV organizer core of [main.py]

    A shallow embedding of the state held by [MainWindow] (the CV queue, the
    cursor, the undo ledger, the e-mail caches and the loaded configuration)
    and of the methods that change it: [open_folder], [import_emails],
    [normalize_name], [unique_dest], [move_current], [hold], [undo],
    [export_csv], [save_session_state] and [load_session_state]; of
    [show_history] and [load_config]; and of the document and page held by
    [PdfViewer] ([load_pdf], [show_page], [keyPressEvent]).

    Python values are embedded as follows.
    - [str] is [string]; characters are bytes and the character classes of
      [re] and [str.lower] are the ASCII ones (bytes above 127 are kept as
      caseless word characters).
    - [int] is [Z]; a list index is converted with [Z.to_nat] only behind the
      range checks the code performs.
    - [dict] used as a lookup table is a [gmap string _]; the ordered
      [reason_map], iterated by [export_csv], is an association list.
    - the file system is a finite map from path strings to node kinds. Paths
      are compared as strings (POSIX separator, no symbolic links, no
      permissions, no [.] or [..] components).
    - the Qt dialogs are the inputs of an operation (the chosen folder, the
      answer to the overwrite question, the parsed CSV file) and the message
      box that an operation shows is its result. *)

From Stdlib Require Import Ascii.
From stdpp Require Import base gmap strings list sorting pretty.

Local Open Scope Z_scope.

(** ** Python strings *)

Module Py.

Definition sep : ascii := "/"%char.
Definition extsep : ascii := "."%char.

Definition code (c : ascii) : N := N_of_ascii c.

Definition between (lo hi : N) (c : ascii) : bool :=
  ((lo <=? code c) && (code c <=? hi))%N.

(** [str.isspace] on ASCII, which is also what [\s] matches in a [str]
    pattern: TAB..CR, FS..US and the blank. *)
Definition isspace (c : ascii) : bool :=
  between 9 13 c || between 28 32 c.

Definition isupper (c : ascii) : bool := between 65 90 c.

(** [\w] in a [str] pattern: alphanumerics and the underscore. *)
Definition isword (c : ascii) : bool :=
  between 48 57 c || isupper c || between 97 122 c
  || bool_decide (c = "_"%char) || (128 <=? code c)%N.

Definition lower_char (c : ascii) : ascii :=
  if isupper c then ascii_of_N (code c + 32) else c.

Fixpoint map_chars (f : ascii → ascii) (s : string) : string :=
  match s with
  | EmptyString => EmptyString
  | String c r => String (f c) (map_chars f r)
  end.

Fixpoint filter_chars (p : ascii → bool) (s : string) : string :=
  match s with
  | EmptyString => EmptyString
  | String c r => if p c then String c (filter_chars p r) else filter_chars p r
  end.

Fixpoint count_char (x : ascii) (s : string) : nat :=
  match s with
  | EmptyString => 0%nat
  | String c r => ((if bool_decide (c = x) then 1 else 0) + count_char x r)%nat
  end.

(** [s.lower()] *)
Definition lower : string → string := map_chars lower_char.

(** [re.sub(r'\s+', ' ', s)]: every maximal run of white space becomes one
    blank. [in_run] tells that the previous character was white space. *)
Fixpoint collapse_spaces (in_run : bool) (s : string) : string :=
  match s with
  | EmptyString => EmptyString
  | String c r =>
      if isspace c
      then if in_run then collapse_spaces true r
           else String " " (collapse_spaces true r)
      else String c (collapse_spaces false r)
  end.

Fixpoint lstrip (s : string) : string :=
  match s with
  | EmptyString => EmptyString
  | String c r => if isspace c then lstrip r else s
  end.

Fixpoint rstrip (s : string) : string :=
  match s with
  | EmptyString => EmptyString
  | String c r =>
      let r' := rstrip r in
      if isspace c && bool_decide (r' = EmptyString) then EmptyString
      else String c r'
  end.

(** [s.strip()] *)
Definition strip (s : string) : string := rstrip (lstrip s).

Fixpoint startswith (p s : string) : bool :=
  match p, s with
  | EmptyString, _ => true
  | String a p', String b s' => bool_decide (a = b) && startswith p' s'
  | String _ _, EmptyString => false
  end.

(** [s.removeprefix(p)] when [s] starts with [p]. *)
Fixpoint strip_prefix (p s : string) : option string :=
  match p, s with
  | EmptyString, _ => Some s
  | String a p', String b s' =>
      if bool_decide (a = b) then strip_prefix p' s' else None
  | String _ _, EmptyString => None
  end.

(** [s.endswith(suffix)]: some tail of [s] is [suffix]. *)
Fixpoint endswith (s suffix : string) : bool :=
  bool_decide (s = suffix)
  || match s with
     | EmptyString => false
     | String _ r => endswith r suffix
     end.

Fixpoint contains_char (x : ascii) (s : string) : bool :=
  match s with
  | EmptyString => false
  | String c r => bool_decide (c = x) || contains_char x r
  end.

Fixpoint all_chars (x : ascii) (s : string) : bool :=
  match s with
  | EmptyString => true
  | String c r => bool_decide (c = x) && all_chars x r
  end.

(** Split at the last occurrence of [x]: [rsplit x s = Some (h, t)] when
    [s = h ++ x ++ t] and [x] does not occur in [t] ([s.rfind(x)]). *)
Fixpoint rsplit (x : ascii) (s : string) : option (string * string) :=
  match s with
  | EmptyString => None
  | String c r =>
      match rsplit x r with
      | Some (h, t) => Some (String c h, t)
      | None => if bool_decide (c = x) then Some (EmptyString, r) else None
      end
  end.

(** Drop the trailing separators of a path head. *)
Fixpoint rstrip_sep (s : string) : string :=
  match s with
  | EmptyString => EmptyString
  | String c r =>
      let r' := rstrip_sep r in
      if bool_decide (c = sep) && bool_decide (r' = EmptyString)
      then EmptyString else String c r'
  end.

(** [os.path.join(a, b)] of [posixpath]. *)
Definition join (a b : string) : string :=
  if startswith "/" b then b
  else if bool_decide (a = "") || endswith a "/" then a +:+ b
  else a +:+ "/" +:+ b.

(** [os.path.split(p)] of [posixpath]. *)
Definition split (p : string) : string * string :=
  match rsplit sep p with
  | None => ("", p)
  | Some (h, t) =>
      let head := h +:+ "/" in
      (if all_chars sep head then head else rstrip_sep head, t)
  end.

Definition basename (p : string) : string := (split p).2.
Definition dirname (p : string) : string := (split p).1.

(** [os.path.splitext(p)]: the extension starts at the last dot of the last
    path component, unless only dots precede it there. *)
Definition splitext (p : string) : string * string :=
  let '(d, f) := match rsplit sep p with
                 | Some (h, t) => (h +:+ "/", t)
                 | None => ("", p)
                 end in
  match rsplit extsep f with
  | Some (stem, e) =>
      if all_chars extsep stem then (p, "")
      else (d +:+ stem, String extsep e)
  | None => (p, "")
  end.

(** [x or y] on strings taken from a [dict.get]: [None] and the empty
    string are both falsy. *)
Definition or_else (x : option string) (y : string) : string :=
  match x with
  | Some s => if bool_decide (s = "") then y else s
  | None => y
  end.

End Py.

(** ** NameNormalizer *)

(** [MainWindow.normalize_name] *)
Definition normalize_name (name : string) : string :=
  let clean := Py.filter_chars (λ c, Py.isword c || Py.isspace c) name in
  let clean := Py.lower clean in
  Py.strip (Py.collapse_spaces false clean).

(** ** FileStore: the file system and the library calls made on it *)

Inductive node := File | Dir.

Global Instance node_eq_dec : EqDecision node.
Proof. solve_decision. Defined.

(** The disk: which paths exist, and whether as a file or as a directory. *)
Abbreviation filesystem := (gmap string node).

Module Os.

(** [os.path.exists(p)] *)
Definition path_exists (fs : filesystem) (p : string) : bool :=
  bool_decide (is_Some (fs !! p)).

(** [os.path.isdir(p)] *)
Definition isdir (fs : filesystem) (p : string) : bool :=
  bool_decide (fs !! p = Some Dir).

(** The name under which the path [k] is an entry of the directory [d]. *)
Definition entry_name (d k : string) : option string :=
  match Py.strip_prefix (Py.join d "") k with
  | Some n =>
      if bool_decide (n = "") || Py.contains_char Py.sep n then None
      else Some n
  | None => None
  end.

(** [os.listdir(d)]; the order of the entries is the order of the map. *)
Definition listdir (fs : filesystem) (d : string) : list string :=
  omap (entry_name d) (map_to_list fs).*1.

(** [fnmatch] with the wildcards [*] and [?] (no bracket expressions), on
    a case-sensitive platform. *)
Fixpoint fnmatch (pat : string) : string → bool :=
  match pat with
  | EmptyString => λ s, bool_decide (s = "")
  | String p pat' =>
      if bool_decide (p = "*"%char) then
        fix star (s : string) : bool :=
          fnmatch pat' s
          || match s with
             | EmptyString => false
             | String _ s' => star s'
             end
      else if bool_decide (p = "?"%char) then
        λ s, match s with
             | EmptyString => false
             | String _ s' => fnmatch pat' s'
             end
      else
        λ s, match s with
             | EmptyString => false
             | String c s' => bool_decide (c = p) && fnmatch pat' s'
             end
  end.

Definition ishidden (n : string) : bool := Py.startswith "." n.

(** [glob.glob(pathname)] for a literal directory part and a pattern in the
    last component: the entries of the directory that match, hidden ones
    left out unless the pattern is hidden too, each joined to the
    directory. A directory that cannot be listed gives no match. *)
Definition glob (fs : filesystem) (pathname : string) : list string :=
  let '(dirname, pattern) := Py.split pathname in
  let names := if isdir fs dirname then listdir fs dirname else [] in
  Py.join dirname <$>
    filter (λ n, (ishidden pattern || negb (ishidden n)) && fnmatch pattern n)
           names.

(** [sorted(l)] on strings. *)
Definition sorted (l : list string) : list string :=
  merge_sort String.le l.

(** The proper prefixes of a path that name its ancestor directories,
    nearest to the root first. *)
Fixpoint parents (p : string) : list string :=
  match p with
  | EmptyString => []
  | String c r =>
      let rest := String c <$> parents r in
      if negb (bool_decide (c = Py.sep)) && Py.startswith "/" r
      then String c EmptyString :: rest else rest
  end.

(** One [mkdir] of [os.makedirs(_, exist_ok=True)]: an existing directory
    is accepted, a file in the way is an error. *)
Definition ensure_dir (acc : filesystem * bool) (p : string) : filesystem * bool :=
  let '(fs, ok) := acc in
  if ok then
    match fs !! p with
    | Some Dir => (fs, true)
    | Some File => (fs, false)
    | None => (<[p := Dir]> fs, true)
    end
  else acc.

(** The directories [os.makedirs(name)] goes through: the ancestors of
    [name], then [name] itself (without its trailing separators). *)
Definition made_dirs (name : string) : list string :=
  let name := if Py.all_chars Py.sep name then name else Py.rstrip_sep name in
  parents name ++ [name].

(** [os.makedirs(name, exist_ok=True)]: the resulting disk and whether the
    call returned ([false] when it raised; the directories made before the
    error stay). *)
Definition makedirs (fs : filesystem) (name : string) : filesystem * bool :=
  if bool_decide (name = "") then (fs, false)
  else foldl ensure_dir (fs, true) (made_dirs name).

(** The directory in which [p] is created exists. *)
Definition parent_ready (fs : filesystem) (p : string) : bool :=
  let d := Py.dirname p in
  bool_decide (d = "") || Py.all_chars Py.sep d || isdir fs d.

(** [os.remove(p)]: only a file can be removed. *)
Definition remove (fs : filesystem) (p : string) : option filesystem :=
  match fs !! p with
  | Some File => Some (delete p fs)
  | _ => None
  end.

(** The new path of [k] when the tree at [src] is renamed to [dst]. *)
Definition rebase (src dst k : string) : string :=
  if bool_decide (k = src) then dst
  else match Py.strip_prefix (src +:+ "/") k with
       | Some rest => dst +:+ "/" +:+ rest
       | None => k
       end.

Definition rename_tree (fs : filesystem) (src dst : string) : filesystem :=
  list_to_map (prod_map (rebase src dst) id <$> map_to_list fs).

(** [shutil._destinsrc(src, dst)] *)
Definition destinsrc (src dst : string) : bool :=
  let slash s := if Py.endswith s "/" then s else s +:+ "/" in
  Py.startswith (slash src) (slash dst).

(** [shutil.move(src, dst)] on one device; [None] when it raises. *)
Definition move (fs : filesystem) (src dst : string) : option filesystem :=
  if isdir fs dst && bool_decide (src = dst) then Some fs
  else
    let real_dst :=
      if isdir fs dst then Py.join dst (Py.basename (Py.rstrip_sep src))
      else dst in
    if isdir fs dst && path_exists fs real_dst then None
    else
      match fs !! src with
      | None => None
      | Some File =>
          if parent_ready fs real_dst && negb (isdir fs real_dst)
          then Some (<[real_dst := File]> (delete src fs)) else None
      | Some Dir =>
          if destinsrc src real_dst || path_exists fs real_dst
             || negb (parent_ready fs real_dst)
          then None else Some (rename_tree fs src real_dst)
      end.

(** [open(p, 'w')] followed by a successful write. *)
Definition write_file (fs : filesystem) (p : string) : option filesystem :=
  if parent_ready fs p && negb (isdir fs p) then Some (<[p := File]> fs)
  else None.

End Os.

(** ** Data model *)

Inductive op_kind := Reject | Hold.

Global Instance op_kind_eq_dec : EqDecision op_kind.
Proof. solve_decision. Defined.

(** One entry of [undo_stack]: the [dict] built by [move_current] (with a
    ['reason']) and by [hold] (without). *)
Record Operation := {
  op_src : string;
  op_dest : string;
  op_type : op_kind;
  op_reason : option string;
  op_filename : string;
  op_position : Z
}.

Global Instance Operation_eq_dec : EqDecision Operation.
Proof. solve_decision. Defined.

(** The loaded configuration ([self.config]), without the zoom. *)
Record Config := {
  reason_map : list (string * string);
  hold_folder : string;
  email_map : gmap string string;
  max_undo : Z
}.

(** The model state of [MainWindow]. *)
Record Organizer := {
  cv_list : list string;
  current_index : Z;
  undo_stack : list Operation;
  base_folder : string;
  cand_email_map : gmap string string;
  config : Config
}.

(** The content of the session state file. *)
Record Snapshot := {
  snap_base_folder : string;
  snap_cv_list : list string;
  snap_current_index : Z;
  snap_undo_stack : list Operation;
  snap_cand_email_map : gmap string string
}.

(** The organizer in its environment: the disk holding the CVs and the
    session state file (kept apart from the disk: its path and that of the
    temporary file it is written through are not CV paths). *)
Record World := {
  app : Organizer;
  disk : filesystem;
  state_file : option Snapshot
}.

(** What the user sees of an operation: it ran to its end, it returned
    without a word, or it showed a message box of the given title. *)
Inductive report :=
  | Done
  | Returned
  | Information (title : string)
  | Warning (title : string)
  | Critical (title : string).

Global Instance report_eq_dec : EqDecision report.
Proof. solve_decision. Defined.

(** A row of the exported CSV. *)
Record Row := {
  Filename : string;
  ReasonKey : string;
  ReasonText : string;
  Email : string
}.

Definition DEFAULT_CONFIG : Config := {|
  reason_map := [("1", "UnsatisfactoryEducation");
                 ("2", "UnsatisfactoryExperience");
                 ("3", "Other")];
  hold_folder := "HoldForReview";
  email_map := ∅;
  max_undo := 100
|}.

(** The state set up by [MainWindow.__init__] before the session is
    restored. *)
Definition initial (cfg : Config) : Organizer := {|
  cv_list := [];
  current_index := -1;
  undo_stack := [];
  base_folder := "";
  cand_email_map := ∅;
  config := cfg
|}.

(** ** Python lists and dicts *)

(** [d.get(k)] on the ordered [reason_map]. *)
Fixpoint assoc (k : string) (d : list (string * string)) : option string :=
  match d with
  | [] => None
  | (k', v) :: d' => if bool_decide (k' = k) then Some v else assoc k d'
  end.

Definition len {A} (l : list A) : Z := Z.of_nat (length l).

(** [l.pop(i)] for an index in range: the list that remains. *)
Definition list_pop {A} (i : Z) (l : list A) : list A :=
  take (Z.to_nat i) l ++ drop (S (Z.to_nat i)) l.

(** [l.insert(i, x)]: a negative index counts from the end and an index out
    of range is clamped. *)
Definition list_insert_at {A} (i : Z) (x : A) (l : list A) : list A :=
  let i := if i <? 0 then Z.max 0 (i + len l) else Z.min i (len l) in
  take (Z.to_nat i) l ++ x :: drop (Z.to_nat i) l.

(** [l.pop()]: the remaining list and the popped last element. *)
Definition list_pop_last {A} (l : list A) : option (list A * A) :=
  match reverse l with
  | [] => None
  | x :: r => Some (reverse r, x)
  end.

(** ** SessionState *)

Definition snapshot_of (o : Organizer) : Snapshot := {|
  snap_base_folder := base_folder o;
  snap_cv_list := cv_list o;
  snap_current_index := current_index o;
  snap_undo_stack := undo_stack o;
  snap_cand_email_map := cand_email_map o
|}.

(** [MainWindow.save_session_state]: nothing is written before a folder is
    open; the write through the temporary file is taken to succeed. *)
Definition save_session_state (w : World) : World :=
  if bool_decide (base_folder (app w) = "") then w
  else {| app := app w; disk := disk w;
          state_file := Some (snapshot_of (app w)) |}.

(** [MainWindow.load_session_state]: the stored fields replace the state;
    only a cursor at or beyond the end of the list is repaired. *)
Definition load_session_state (w : World) : World :=
  match state_file w with
  | None => w
  | Some s =>
      let cv := snap_cv_list s in
      let idx := snap_current_index s in
      let idx :=
        if len cv <=? idx
        then match cv with [] => -1 | _ => Z.max 0 (len cv - 1) end
        else idx in
      {| app := {| cv_list := cv;
                   current_index := idx;
                   undo_stack := snap_undo_stack s;
                   base_folder := snap_base_folder s;
                   cand_email_map := snap_cand_email_map s;
                   config := config (app w) |};
         disk := disk w;
         state_file := state_file w |}
  end.

(** ** Organizer *)

Definition with_disk (fs : filesystem) (w : World) : World :=
  {| app := app w; disk := fs; state_file := state_file w |}.

Definition with_undo_stack (s : list Operation) (o : Organizer) : Organizer :=
  {| cv_list := cv_list o; current_index := current_index o;
     undo_stack := s; base_folder := base_folder o;
     cand_email_map := cand_email_map o; config := config o |}.

(** [MainWindow.open_folder]; [d] is the directory chosen in the dialog, empty
    when the dialog is cancelled. *)
Definition open_folder (d : string) (w : World) : World * report :=
  if bool_decide (d = "") then (w, Returned)
  else
    let cv := Os.sorted (Os.glob (disk w) (Py.join d "*.pdf")) in
    let o := {| cv_list := cv;
                current_index := match cv with [] => -1 | _ => 0 end;
                undo_stack := [];
                base_folder := d;
                cand_email_map := cand_email_map (app w);
                config := config (app w) |} in
    (save_session_state {| app := o; disk := disk w; state_file := state_file w |},
     match cv with [] => Information "No PDFs" | _ => Done end).

(** The [while] loop of [unique_dest]; [fuel] bounds the number of
    candidates tried. *)
Fixpoint unique_dest_loop (fuel : nat) (fs : filesystem)
    (directory base ext candidate : string) (counter : nat) : option string :=
  match fuel with
  | O => None
  | S fuel' =>
      if Os.path_exists fs (Py.join directory candidate)
      then unique_dest_loop fuel' fs directory base ext
             (base +:+ "_" +:+ pretty counter +:+ ext) (S counter)
      else Some candidate
  end.

(** [MainWindow.unique_dest]. One candidate more than there are paths on
    the disk is enough fuel ([unique_dest_returns]). *)
Definition unique_dest (fs : filesystem) (directory name : string) : option string :=
  let '(base, ext) := Py.splitext name in
  unique_dest_loop (S (size fs)) fs directory base ext name 1.

(** The guard that opens [move_current] and [hold]. *)
Definition has_current (o : Organizer) : bool :=
  negb (bool_decide (cv_list o = []))
  && (0 <=? current_index o) && (current_index o <? len (cv_list o)).

(** Append to the ledger and enforce the undo limit. *)
Definition push_bounded (limit : Z) (op : Operation) (stack : list Operation)
    : list Operation :=
  let stack := stack ++ [op] in
  if limit <? len stack then drop 1 stack else stack.

(** The cursor once the current item has left the list [cv]. *)
Definition adjust_index (idx : Z) (cv : list string) : Z :=
  match cv with
  | [] => -1
  | _ => if len cv <=? idx then len cv - 1 else idx
  end.

(** The first half of the [try] block shared by [move_current] and [hold]:
    make the destination directory, pick a free name, move the file and
    build the ledger entry. The disk is returned in any case, the entry
    only when nothing raised. ([unique_dest] always returns a name, see
    [unique_dest_returns]; its [None] branch is never taken.) *)
Definition relocate (kind : op_kind) (reason : option string)
    (dest_dir src : string) (w : World) : filesystem * option Operation :=
  let '(fs1, ok) := Os.makedirs (disk w) dest_dir in
  if negb ok then (fs1, None)
  else
    let name := Py.basename src in
    match unique_dest fs1 dest_dir name with
    | None => (fs1, None)
    | Some unique_name =>
        let dest := Py.join dest_dir unique_name in
        match Os.move fs1 src dest with
        | None => (fs1, None)
        | Some fs2 =>
            (fs2, Some {| op_src := src; op_dest := dest; op_type := kind;
                          op_reason := reason; op_filename := name;
                          op_position := current_index (app w) |})
        end
    end.

(** The second half: record the entry, drop the item from the queue, adjust
    the cursor and persist. *)
Definition record (op : Operation) (fs : filesystem) (w : World) : World :=
  let o := app w in
  let cv := list_pop (current_index o) (cv_list o) in
  save_session_state
    {| app := {| cv_list := cv;
                 current_index := adjust_index (current_index o) cv;
                 undo_stack := push_bounded (max_undo (config o)) op (undo_stack o);
                 base_folder := base_folder o;
                 cand_email_map := cand_email_map o;
                 config := config o |};
       disk := fs;
       state_file := state_file w |}.

Definition file_away (kind : op_kind) (reason : option string)
    (dest_dir src : string) (w : World) : World * report :=
  match relocate kind reason dest_dir src w with
  | (fs, None) => (with_disk fs w, Critical "Error")
  | (fs, Some op) => (record op fs w, Done)
  end.

(** The item under the cursor, [self.cv_list[self.current_index]]. *)
Definition current_item (o : Organizer) : option string :=
  if has_current o then cv_list o !! Z.to_nat (current_index o) else None.

(** [MainWindow.move_current] *)
Definition move_current (reason_key : string) (w : World) : World * report :=
  let o := app w in
  match current_item o with
  | None => (w, Returned)
  | Some src =>
      match assoc reason_key (reason_map (config o)) with
      | None => (w, Warning "Invalid Reason")
      | Some folder =>
          if negb (Os.path_exists (disk w) src) then (w, Warning "File Missing")
          else
            let dest_dir := Py.join (Py.join (base_folder o) "Rejected") folder in
            file_away Reject (Some reason_key) dest_dir src w
      end
  end.

(** [MainWindow.hold] *)
Definition hold (w : World) : World * report :=
  let o := app w in
  match current_item o with
  | None => (w, Returned)
  | Some src =>
      if negb (Os.path_exists (disk w) src) then (w, Warning "File Missing")
      else
        let hold_dir := Py.join (base_folder o) (hold_folder (config o)) in
        file_away Hold None hold_dir src w
  end.

(** What [undo] does with the entry it has popped; [w] already has the
    shortened ledger. [overwrite] is the answer to the File Conflict
    question, asked only when the original location is occupied. *)
Definition restore (overwrite : bool) (operation : Operation) (w : World)
    : World * report :=
  let src := op_src operation in
  let dest := op_dest operation in
  let '(fs1, ok) := Os.makedirs (disk w) (Py.dirname src) in
  if negb ok then (with_disk fs1 w, Critical "Error")
  else if negb (Os.path_exists fs1 dest) then (with_disk fs1 w, Warning "File Missing")
  else
    let cleared : filesystem + report :=
      if Os.path_exists fs1 src then
        if overwrite then
          match Os.remove fs1 src with
          | Some fs => inl fs
          | None => inr (Critical "Error")
          end
        else inr Returned
      else inl fs1 in
    match cleared with
    | inr r => (with_disk fs1 w, r)
    | inl fs2 =>
        match Os.move fs2 dest src with
        | None => (with_disk fs2 w, Critical "Error")
        | Some fs3 =>
            let o := app w in
            let insert_index :=
              if len (cv_list o) <? op_position operation then len (cv_list o)
              else op_position operation in
            (save_session_state
               {| app := {| cv_list := list_insert_at insert_index src (cv_list o);
                            current_index := insert_index;
                            undo_stack := undo_stack o;
                            base_folder := base_folder o;
                            cand_email_map := cand_email_map o;
                            config := config o |};
                  disk := fs3;
                  state_file := state_file w |},
             Done)
        end
    end.

(** [MainWindow.undo] *)
Definition undo (overwrite : bool) (w : World) : World * report :=
  match list_pop_last (undo_stack (app w)) with
  | None => (w, Information "Undo")
  | Some (rest, operation) =>
      restore overwrite operation
        {| app := with_undo_stack rest (app w);
           disk := disk w; state_file := state_file w |}
  end.

(** ** EmailDirectory *)

(** A CSV file as [csv.DictReader] presents it: the header ([None] for an
    empty file) and, for each record, [row['name']] and [row['email']]
    ([None] when the line is too short to have the column). *)
Record CsvFile := {
  fieldnames : option (list string);
  csv_rows : list (option string * option string)
}.

(** The two dictionaries [import_emails] fills, and its counter. *)
Record Imported := {
  session_tier : gmap string string;
  persistent_tier : gmap string string;
  new_emails : nat
}.

(** The [for row in reader] loop. The flag is [false] when a row raises; the
    entries stored before it stay in the dictionaries, which are mutated in
    place. *)
Fixpoint import_rows (rows : list (option string * option string))
    (acc : Imported) : Imported * bool :=
  match rows with
  | [] => (acc, true)
  | (Some name, Some email) :: rows' =>
      let name_key := normalize_name name in
      let email := Py.strip email in
      if negb (bool_decide (name_key = "")) && negb (bool_decide (email = ""))
      then import_rows rows'
             {| session_tier := <[name_key := email]> (session_tier acc);
                persistent_tier := <[name_key := email]> (persistent_tier acc);
                new_emails := S (new_emails acc) |}
      else import_rows rows' acc
  | _ :: _ => (acc, false)
  end.

Definition with_emails (i : Imported) (o : Organizer) : Organizer :=
  {| cv_list := cv_list o; current_index := current_index o;
     undo_stack := undo_stack o; base_folder := base_folder o;
     cand_email_map := session_tier i;
     config := {| reason_map := reason_map (config o);
                  hold_folder := hold_folder (config o);
                  email_map := persistent_tier i;
                  max_undo := max_undo (config o) |} |}.

(** [MainWindow.import_emails]; [file] is the CSV file chosen in the dialog,
    [None] when the dialog is cancelled. *)
Definition import_emails (file : option CsvFile) (w : World) : World * report :=
  let o := app w in
  if bool_decide (base_folder o = "") then (w, Information "Info")
  else
    match file with
    | None => (w, Returned)
    | Some f =>
        match fieldnames f with
        | None => (w, Critical "Import Error")
        | Some header =>
            if negb (bool_decide ("name" ∈ header))
               || negb (bool_decide ("email" ∈ header))
            then (w, Warning "Invalid Format")
            else
              let '(i, ok) :=
                import_rows (csv_rows f)
                  {| session_tier := cand_email_map o;
                     persistent_tier := email_map (config o);
                     new_emails := 0 |} in
              let w' := {| app := with_emails i o; disk := disk w;
                           state_file := state_file w |} in
              if ok then (save_session_state w', Information "Import Complete")
              else (w', Critical "Import Error")
        end
    end.

(** The e-mail [export_csv] finds for a file name stem: the session cache,
    else the configuration, else nothing. *)
Definition lookup_email (o : Organizer) (base_name : string) : string :=
  Py.or_else (cand_email_map o !! base_name)
    (Py.or_else (email_map (config o) !! base_name) "").

(** The rows [export_csv] collects for one entry of [reason_map]. *)
Definition folder_rows (o : Organizer) (fs : filesystem) (rejected_dir : string)
    (entry : string * string) : list Row :=
  let '(key, folder) := entry in
  let path := Py.join rejected_dir folder in
  if Os.isdir fs path then
    (λ fname, {| Filename := fname; ReasonKey := key; ReasonText := folder;
                 Email := lookup_email o (Py.splitext fname).1 |})
      <$> filter (λ fname, Py.endswith (Py.lower fname) ".pdf")
                 (Os.listdir fs path)
  else [].

(** The list [rows] built by the scan of [export_csv]. *)
Definition export_rows (w : World) : list Row :=
  let rejected_dir := Py.join (base_folder (app w)) "Rejected" in
  reason_map (config (app w)) ≫= folder_rows (app w) (disk w) rejected_dir.

(** [MainWindow.export_csv]; [out_path] is the file chosen in the save dialog,
    empty when the dialog is cancelled. The last component of the result is
    the list of rows written to the CSV file. *)
Definition export_csv (out_path : string) (w : World)
    : World * report * list Row :=
  let o := app w in
  if bool_decide (base_folder o = "") then (w, Information "Info", [])
  else if negb (Os.path_exists (disk w) (Py.join (base_folder o) "Rejected"))
  then (w, Information "Export CSV", [])
  else
    match export_rows w with
    | [] => (w, Information "Export CSV", [])
    | rows =>
        if bool_decide (out_path = "") then (w, Returned, [])
        else
          let out_path :=
            if Py.endswith (Py.lower out_path) ".csv" then out_path
            else out_path +:+ ".csv" in
          match Os.write_file (disk w) out_path with
          | None => (w, Critical "Error", [])
          | Some fs => (with_disk fs w, Information "Export Complete", rows)
          end
    end.

(** ** Runs *)

(** The two ways of filing the current CV away. *)
Inductive action := MoveCurrent (reason_key : string) | HoldCurrent.

Definition step (a : action) (w : World) : World * report :=
  match a with
  | MoveCurrent k => move_current k w
  | HoldCurrent => hold w
  end.

(** Run the actions in order; [Some] when every one of them succeeded. *)
Fixpoint run (acts : list action) (w : World) : option World :=
  match acts with
  | [] => Some w
  | a :: acts' =>
      match step a w with
      | (w', Done) => run acts' w'
      | _ => None
      end
  end.

(** Call [undo] once per answer; [Some] when every call succeeded. *)
Fixpoint undo_all (answers : list bool) (w : World) : option World :=
  match answers with
  | [] => Some w
  | b :: answers' =>
      match undo b w with
      | (w', Done) => undo_all answers' w'
      | _ => None
      end
  end.

(** ** The candidates of unique_dest *)

(** The candidates [unique_dest] tries, in order: the name itself, then the
    numbered names. *)
Definition nth_candidate (name base ext : string) (i : nat) : string :=
  match i with
  | O => name
  | S _ => base +:+ "_" +:+ pretty i +:+ ext
  end.

Definition candidate (name : string) : nat → string :=
  nth_candidate name (Py.splitext name).1 (Py.splitext name).2.

(** ** The history of the ledger *)

(** The entry a successful action has just put on top of the ledger. *)
Definition recorded_by (a : action) (w : World) : option Operation :=
  match step a w with
  | (w', Done) => last (undo_stack (app w'))
  | _ => None
  end.

(** The entries recorded along a run, oldest first. *)
Fixpoint journal (acts : list action) (w : World) : list Operation :=
  match acts with
  | [] => []
  | a :: acts' => option_list (recorded_by a w) ++ journal acts' (step a w).1
  end.

(** The [n] newest entries of a list that grows at its end. *)
Definition keep_last {A} (n : Z) (l : list A) : list A :=
  drop (length l - Z.to_nat n) l.

(** ** Invariants and reachable worlds *)

Definition fresh (cfg : Config) (fs : filesystem) : World :=
  {| app := initial cfg; disk := fs; state_file := None |}.

(** The cursor is -1 on an empty queue and a valid index otherwise. *)
Definition cursor_ok (cv : list string) (idx : Z) : Prop :=
  match cv with
  | [] => idx = -1
  | _ => 0 ≤ idx < len cv
  end.

(** The CvQueue invariant of the data model. *)
Definition queue_inv (o : Organizer) : Prop :=
  NoDup (cv_list o) ∧ cursor_ok (cv_list o) (current_index o).

(** What the ledger has to satisfy for [undo] to keep the queue invariant:
    no entry's source is in the queue or recorded twice, and the recorded
    positions are not negative. *)
Definition ledger_ok (cv : list string) (stack : list Operation) : Prop :=
  NoDup (cv ++ (op_src <$> stack)) ∧ Forall (λ op, 0 ≤ op_position op) stack.

Definition organizer_inv (o : Organizer) : Prop :=
  cursor_ok (cv_list o) (current_index o)
  ∧ ledger_ok (cv_list o) (undo_stack o).

Definition snapshot_inv (s : Snapshot) : Prop :=
  cursor_ok (snap_cv_list s) (snap_current_index s)
  ∧ ledger_ok (snap_cv_list s) (snap_undo_stack s).

Definition state_file_inv (w : World) : Prop :=
  match state_file w with Some s => snapshot_inv s | None => True end.

(** What holds of every reachable world: the organizer and the snapshot in
    the state file both satisfy the invariant. *)
Definition world_inv (w : World) : Prop :=
  organizer_inv (app w) ∧ state_file_inv w.

(** Start of the application: [__init__] sets the initial state and restores
    the session from the state file. *)
Definition startup (cfg : Config) (w : World) : World :=
  load_session_state
    {| app := initial cfg; disk := disk w; state_file := state_file w |}.

(** The worlds the application can be in: it is first started without a
    state file; then the user opens folders, files CVs away, undoes, imports
    and exports, the timer saves the session, the files on disk change
    behind the application's back, and the application is closed and
    started again on the state file it wrote. *)
Inductive reachable : World → Prop :=
  | reach_fresh cfg fs : reachable (fresh cfg fs)
  | reach_open_folder d w : reachable w → reachable (open_folder d w).1
  | reach_move_current k w : reachable w → reachable (move_current k w).1
  | reach_hold w : reachable w → reachable (hold w).1
  | reach_undo b w : reachable w → reachable (undo b w).1
  | reach_import_emails f w : reachable w → reachable (import_emails f w).1
  | reach_export_csv p w : reachable w → reachable (export_csv p w).1.1
  | reach_save w : reachable w → reachable (save_session_state w)
  | reach_disk fs w : reachable w → reachable (with_disk fs w)
  | reach_startup cfg w : reachable w → reachable (startup cfg w).

(** ** Sample worlds *)

Definition demo_disk : filesystem :=
  list_to_map [("/cv", Dir); ("/cv/b.pdf", File); ("/cv/a.pdf", File);
               ("/cv/notes.txt", File); ("/cv/old", Dir);
               ("/cv/old/z.pdf", File); ("/cv/.hidden.pdf", File)].

Definition two_cvs : filesystem :=
  list_to_map [("/cv", Dir); ("/cv/a.pdf", File); ("/cv/b.pdf", File)].

(** A state file with the same path twice. *)
Definition duplicated_session : World :=
  {| app := initial DEFAULT_CONFIG;
     disk := two_cvs;
     state_file := Some {| snap_base_folder := "/cv";
                           snap_cv_list := ["/cv/a.pdf"; "/cv/a.pdf"];
                           snap_current_index := 0;
                           snap_undo_stack := [];
                           snap_cand_email_map := ∅ |} |}.

(** A folder in which an earlier session has rejected a CV. *)
Definition leftover_disk : filesystem :=
  list_to_map [("/cv", Dir); ("/cv/new.pdf", File);
               ("/cv/Rejected", Dir); ("/cv/Rejected/Other", Dir);
               ("/cv/Rejected/Other/old.pdf", File)].

Definition jane_disk : filesystem :=
  list_to_map [("/cv", Dir); ("/cv/Jane Doe.pdf", File)].

Definition jane_csv : CsvFile :=
  {| fieldnames := Some ["name"; "email"];
     csv_rows := [(Some "Jane Doe", Some "jane@x.com")] |}.

(** Open the folder, import the e-mail of Jane Doe, reject her CV. *)
Definition jane_rejected : World :=
  let w := (open_folder "/cv" (fresh DEFAULT_CONFIG jane_disk)).1 in
  let w := (import_emails (Some jane_csv) w).1 in
  (move_current "1" w).1.

Definition mixed_case_disk : filesystem :=
  list_to_map [("/cv", Dir); ("/cv/A.PDF", File); ("/cv/b.pdf", File)].

(** The folder with two CVs, opened. *)
Definition opened : World :=
  (open_folder "/cv" (fresh DEFAULT_CONFIG two_cvs)).1.

Definition two_filings : list action := [MoveCurrent "1"; HoldCurrent].

(** Both CVs filed away, then both filings undone. *)
Definition filed : World := default opened (run two_filings opened).

Definition undone : World := default filed (undo_all [false; false] filed).

(** The entries the two filings record. *)
Definition reject_a : Operation :=
  {| op_src := "/cv/a.pdf";
     op_dest := "/cv/Rejected/UnsatisfactoryEducation/a.pdf";
     op_type := Reject; op_reason := Some "1"; op_filename := "a.pdf";
     op_position := 0 |}.

Definition hold_b : Operation :=
  {| op_src := "/cv/b.pdf"; op_dest := "/cv/HoldForReview/b.pdf";
     op_type := Hold; op_reason := None; op_filename := "b.pdf";
     op_position := 0 |}.

(** The held CV has been deleted from the hold folder behind the
    application's back. *)
Definition held_file_gone : World :=
  with_disk (delete "/cv/HoldForReview/b.pdf" (disk filed)) filed.

(** A configuration whose ledger has room for one entry. *)
Definition one_undo : Config :=
  {| reason_map := reason_map DEFAULT_CONFIG;
     hold_folder := hold_folder DEFAULT_CONFIG;
     email_map := ∅;
     max_undo := 1 |}.

Definition opened_one_undo : World :=
  (open_folder "/cv" (fresh one_undo two_cvs)).1.

Definition filed_one_undo : World :=
  default opened_one_undo (run two_filings opened_one_undo).

(** The first CV of the folder rejected for reason 1. *)
Definition rejected_a : World := (move_current "1" opened).1.

(** After the rejection another file has been put at the place of the
    rejected CV. *)
Definition reoccupied : World :=
  with_disk (<["/cv/a.pdf" := File]> (disk rejected_a)) rejected_a.

(** Two rows for the same candidate, spelled differently. *)
Definition csv_two_rows : CsvFile :=
  {| fieldnames := Some ["name"; "email"];
     csv_rows := [(Some "Jane Doe", Some "old@x.com");
                  (Some "  JANE   doe!", Some " jane@x.com ")] |}.

(** A state file whose cursor is beyond the end of its list. *)
Definition stale_cursor : Snapshot :=
  {| snap_base_folder := "/cv";
     snap_cv_list := ["/cv/a.pdf"; "/cv/b.pdf"];
     snap_current_index := 7;
     snap_undo_stack := [];
     snap_cand_email_map := ∅ |}.

Definition stale_cursor_session : World :=
  {| app := initial DEFAULT_CONFIG; disk := two_cvs;
     state_file := Some stale_cursor |}.

(** ** PdfViewer: the pages of the document on screen *)

(** The part of [PdfViewer] that does not depend on the zoom: the open
    document, given by its number of pages [len(self.doc)], and the page
    shown. *)
Record PdfViewer := {
  doc : option nat;
  page_idx : Z
}.

(** [PdfViewer.__init__] *)
Definition new_viewer : PdfViewer := {| doc := None; page_idx := 0 |}.

(** The truth value of [self.doc]: a document object is falsy when it has
    no page. *)
Definition has_doc (v : PdfViewer) : bool :=
  match doc v with
  | Some (S _) => true
  | _ => false
  end.

Definition doc_len (v : PdfViewer) : Z :=
  match doc v with
  | Some n => Z.of_nat n
  | None => 0
  end.

(** What [show_page] puts on screen. *)
Inductive shown := PageShown | NoDocument | InvalidPage.

(** [PdfViewer.show_page], without the rendering. *)
Definition show_page (v : PdfViewer) : shown :=
  if negb (has_doc v) then NoDocument
  else if (0 <=? page_idx v) && (page_idx v <? doc_len v) then PageShown
  else InvalidPage.

(** [PdfViewer.load_pdf]; [opened] is what [fitz.open(path)] gives: the
    number of pages of the document, or [None] when it raises. *)
Definition load_pdf (fs : filesystem) (path : string) (opened : option nat)
    (v : PdfViewer) : PdfViewer :=
  let v := if has_doc v then {| doc := None; page_idx := page_idx v |} else v in
  if bool_decide (path = "") || negb (Os.path_exists fs path) then v
  else
    match opened with
    | Some n => {| doc := Some n; page_idx := 0 |}
    | None => v
    end.

Inductive Key := Key_Right | Key_Left | Key_Equal | Key_Minus | Key_0 | Key_Other.

(** [PdfViewer.keyPressEvent] on the document and the page: the arrow keys
    turn the page, every other key (the zoom keys with Ctrl among them)
    leaves both as they are. *)
Definition keyPressEvent (key : Key) (ctrl : bool) (v : PdfViewer) : PdfViewer :=
  if negb (has_doc v) then v
  else
    match key with
    | Key_Right =>
        if page_idx v <? doc_len v - 1
        then {| doc := doc v; page_idx := page_idx v + 1 |} else v
    | Key_Left =>
        if 0 <? page_idx v
        then {| doc := doc v; page_idx := page_idx v - 1 |} else v
    | _ => v
    end.

(** What happens to a viewer: documents are loaded, keys are pressed, and
    [move_current] and [hold] drop the document before they move its
    file. *)
Inductive viewer_reachable : PdfViewer → Prop :=
  | viewer_new : viewer_reachable new_viewer
  | viewer_load fs path opened v :
      viewer_reachable v → viewer_reachable (load_pdf fs path opened v)
  | viewer_key key ctrl v :
      viewer_reachable v → viewer_reachable (keyPressEvent key ctrl v)
  | viewer_release v :
      viewer_reachable v → viewer_reachable {| doc := None; page_idx := page_idx v |}.

(** A document of three pages, loaded and turned to its second page. *)
Definition second_page : PdfViewer :=
  keyPressEvent Key_Right false
    (load_pdf two_cvs "/cv/a.pdf" (Some 3%nat) new_viewer).

(** ** The undo history *)

Definition newline : string := String (ascii_of_nat 10) "".

(** The text of one entry of [show_history]; [None] when the entry is a
    rejection without a ['reason'] (a [KeyError]). *)
Definition history_item (cfg : Config) (i : nat) (op : Operation) : option string :=
  let kind := match op_type op with Reject => "Rejected" | Hold => "Held" end in
  reason ← match op_type op with
           | Reject => (λ k, default k (assoc k (reason_map cfg))) <$> op_reason op
           | Hold => Some "Review"
           end;
  Some (pretty i +:+ ". " +:+ kind +:+ ": " +:+ op_filename op +:+ newline
        +:+ "   Reason: " +:+ reason +:+ newline +:+ newline).

(** The [for i, op in enumerate(..., 1)] loop of [show_history]. *)
Fixpoint history_loop (cfg : Config) (i : nat) (ops : list Operation)
    (history : string) : option string :=
  match ops with
  | [] => Some history
  | op :: ops' =>
      item ← history_item cfg i op;
      history_loop cfg (S i) ops' (history +:+ item)
  end.

Definition history_header : string :=
  "Recent operations (most recent last):" +:+ newline +:+ newline.

(** [MainWindow.show_history]: the text of the message box, [None] when the
    loop raises. *)
Definition show_history (o : Organizer) : option string :=
  match undo_stack o with
  | [] => Some "No operations in history"
  | _ => history_loop (config o) 1 (keep_last 10 (undo_stack o)) history_header
  end.

(** The entries an application run puts on the ledger: a rejection carries
    its reason key, the file name is the last component of the source. *)
Definition recorded_shape (op : Operation) : Prop :=
  (op_type op = Reject → is_Some (op_reason op))
  ∧ op_filename op = Py.basename (op_src op).

(** ** The configuration file *)






(** ** Shapes of keys and of changes on disk *)




(** Between two disks nothing changed but directories that were made. *)
Definition only_dirs_made (fs fs' : filesystem) : Prop :=
  ∀ p, fs' !! p = fs !! p ∨ (fs !! p = None ∧ fs' !! p = Some Dir).

(** The directory [move_current] and [hold] file the current CV into. *)
Definition destination_dir (a : action) (o : Organizer) : option string :=
  match a with
  | MoveCurrent k =>
      Py.join (Py.join (base_folder o) "Rejected") <$> assoc k (reason_map (config o))
  | HoldCurrent => Some (Py.join (base_folder o) (hold_folder (config o)))
  end.

(** * Properties *)

(** ** The library model on examples *)

Example normalize_name_obrien :
  normalize_name "John   O'Brien!!" = "john obrien"
  ∧ normalize_name "john obrien" = "john obrien".
Proof. split; reflexivity. Qed.

Example splitext_examples :
  Py.splitext "a.b.pdf" = ("a.b", ".pdf")
  ∧ Py.splitext ".bashrc" = (".bashrc", "")
  ∧ Py.splitext "/x.d/name" = ("/x.d/name", "")
  ∧ Py.splitext "/cv/Jane Doe.PDF" = ("/cv/Jane Doe", ".PDF").
Proof. repeat split; reflexivity. Qed.

Example split_examples :
  Py.split "/cv/a.pdf" = ("/cv", "a.pdf")
  ∧ Py.split "/a.pdf" = ("/", "a.pdf")
  ∧ Py.split "a.pdf" = ("", "a.pdf")
  ∧ Py.split "/cv//a.pdf" = ("/cv", "a.pdf")
  ∧ Py.join "/cv" "a.pdf" = "/cv/a.pdf"
  ∧ Py.join "/cv/" "a.pdf" = "/cv/a.pdf"
  ∧ Py.join "/cv" "/etc" = "/etc"
  ∧ Py.join "" "a.pdf" = "a.pdf".
Proof. repeat split; reflexivity. Qed.

Example glob_demo :
  Os.sorted (Os.glob demo_disk (Py.join "/cv" "*.pdf"))
  = ["/cv/a.pdf"; "/cv/b.pdf"].
Proof. vm_compute. reflexivity. Qed.

Example makedirs_demo :
  (Os.makedirs demo_disk "/cv/Rejected/Other").1
  = <["/cv/Rejected/Other" := Dir]> (<["/cv/Rejected" := Dir]> demo_disk)
  ∧ (Os.makedirs demo_disk "/cv/a.pdf/x").2 = false.
Proof. split; vm_compute; reflexivity. Qed.


(** ** Strings *)

Section string_facts.

Lemma count_char_app x s t :
  Py.count_char x (s +:+ t) = (Py.count_char x s + Py.count_char x t)%nat.
Proof. induction s as [|c s IH]; simpl; [done|]. rewrite IH. lia. Qed.

Lemma count_filter_chars x p s :
  p x = true → Py.count_char x (Py.filter_chars p s) = Py.count_char x s.
Proof.
  intros Hp. induction s as [|c s IH]; simpl; [done|].
  destruct (p c) eqn:Hc; simpl; rewrite IH; [done|].
  case_bool_decide; [congruence|done].
Qed.

Lemma lower_char_underscore c :
  bool_decide (Py.lower_char c = "_"%char) = bool_decide (c = "_"%char).
Proof. by destruct c as [[] [] [] [] [] [] [] []]. Qed.

Lemma count_lower s :
  Py.count_char "_" (Py.lower s) = Py.count_char "_" s.
Proof.
  induction s as [|c s IH]; simpl; [done|].
  unfold Py.lower in IH. by rewrite IH, lower_char_underscore.
Qed.

Lemma isspace_not_underscore c :
  Py.isspace c = true → bool_decide (c = "_"%char) = false.
Proof. by destruct c as [[] [] [] [] [] [] [] []]. Qed.

Lemma count_collapse_spaces b s :
  Py.count_char "_" (Py.collapse_spaces b s) = Py.count_char "_" s.
Proof.
  revert b. induction s as [|c s IH]; intros b; simpl; [done|].
  destruct (Py.isspace c) eqn:Hc.
  - rewrite (isspace_not_underscore c Hc). destruct b; simpl; by rewrite IH.
  - simpl. by rewrite IH.
Qed.

Lemma count_lstrip s : Py.count_char "_" (Py.lstrip s) = Py.count_char "_" s.
Proof.
  induction s as [|c s IH]; simpl; [done|].
  destruct (Py.isspace c) eqn:Hc; [|done].
  by rewrite (isspace_not_underscore c Hc), IH.
Qed.

Lemma count_rstrip s : Py.count_char "_" (Py.rstrip s) = Py.count_char "_" s.
Proof.
  induction s as [|c s IH]; simpl; [done|].
  destruct (Py.isspace c) eqn:Hc; simpl.
  - rewrite (isspace_not_underscore c Hc).
    case_bool_decide as Hr; simpl.
    + rewrite <- IH, Hr. done.
    + by rewrite (isspace_not_underscore c Hc), IH.
  - by rewrite IH.
Qed.

End string_facts.

(** C9. [normalize_name] keeps every underscore of its input: the key has as
    many underscores as the raw name, so a name with an underscore and the
    same name without it get different keys. *)
Theorem normalize_name_keeps_underscores :
  (∀ raw, Py.count_char "_" (normalize_name raw) = Py.count_char "_" raw)
  ∧ (∀ a b, normalize_name (a +:+ "_" +:+ b) ≠ normalize_name (a +:+ b)).
Proof.
  assert (Hcount : ∀ raw,
    Py.count_char "_" (normalize_name raw) = Py.count_char "_" raw).
  { intros raw. unfold normalize_name, Py.strip.
    rewrite count_rstrip, count_lstrip, count_collapse_spaces, count_lower.
    by apply count_filter_chars. }
  split; [exact Hcount|].
  intros a b Heq.
  apply (f_equal (Py.count_char "_")) in Heq.
  rewrite !Hcount, !count_char_app in Heq. simpl in Heq. lia.
Qed.

Example normalize_name_underscore :
  normalize_name "Jane_Doe" = "jane_doe" ∧ normalize_name "JaneDoe" = "janedoe".
Proof. split; reflexivity. Qed.

(** ** Lists *)

Section list_facts.
Context {A : Type}.
Implicit Types (l : list A) (x : A).

Lemma len_nonneg l : 0 ≤ len l.
Proof. unfold len. lia. Qed.

Lemma len_app l1 l2 : len (l1 ++ l2) = len l1 + len l2.
Proof. unfold len. rewrite length_app. lia. Qed.

Lemma list_pop_last_snoc l x : list_pop_last (l ++ [x]) = Some (l, x).
Proof.
  unfold list_pop_last. rewrite reverse_snoc. by rewrite reverse_involutive.
Qed.

Lemma list_pop_last_Some l rest x :
  list_pop_last l = Some (rest, x) → l = rest ++ [x].
Proof.
  unfold list_pop_last. destruct (reverse l) as [|y r] eqn:Hr; [done|].
  intros [= <- <-]. rewrite <- (reverse_involutive l), Hr.
  by rewrite reverse_cons.
Qed.

Lemma list_pop_last_None l : list_pop_last l = None → l = [].
Proof.
  unfold list_pop_last. destruct (reverse l) as [|y r] eqn:Hr; [|done].
  intros _. rewrite <- (reverse_involutive l), Hr. done.
Qed.

(** Popping an index in range splits the list around the popped item. *)
Lemma list_pop_middle i l x :
  0 ≤ i → l !! Z.to_nat i = Some x →
  ∃ pre post, l = pre ++ x :: post ∧ len pre = i ∧ list_pop i l = pre ++ post.
Proof.
  intros Hi Hx. exists (take (Z.to_nat i) l), (drop (S (Z.to_nat i)) l).
  split; [by rewrite take_drop_middle|]. split; [|done].
  unfold len. rewrite length_take.
  apply lookup_lt_Some in Hx. lia.
Qed.

Lemma list_insert_at_middle pre post x :
  list_insert_at (len pre) x (pre ++ post) = pre ++ x :: post.
Proof.
  unfold list_insert_at.
  pose proof (len_nonneg pre). pose proof (len_nonneg post).
  destruct (Z.ltb_spec (len pre) 0); [lia|].
  rewrite len_app, Z.min_l by lia.
  unfold len. rewrite Nat2Z.id.
  by rewrite take_app_length, drop_app_length.
Qed.

End list_facts.

(** ** What a successful operation does to the organizer *)

Lemma app_save_session_state w : app (save_session_state w) = app w.
Proof. unfold save_session_state. by case_bool_decide. Qed.

Lemma current_item_Some o src :
  current_item o = Some src →
  0 ≤ current_index o < len (cv_list o)
  ∧ cv_list o !! Z.to_nat (current_index o) = Some src.
Proof.
  unfold current_item, has_current.
  destruct (negb _); simpl; [|done].
  destruct (Z.leb_spec 0 (current_index o)); simpl; [|done].
  destruct (Z.ltb_spec (current_index o) (len (cv_list o))); simpl; [|done].
  intros ?. split; [lia|done].
Qed.

Lemma file_away_done kind reason dest_dir src w w' :
  file_away kind reason dest_dir src w = (w', Done) →
  ∃ op fs, w' = record op fs w ∧ op_src op = src
           ∧ op_position op = current_index (app w).
Proof.
  unfold file_away.
  destruct (relocate kind reason dest_dir src w) as [fs [op|]] eqn:Hrel; [|done].
  intros [= <-]. exists op, fs. split; [done|].
  unfold relocate in Hrel.
  destruct (Os.makedirs (disk w) dest_dir) as [fs1 []]; simpl in Hrel; [|done].
  destruct (unique_dest fs1 dest_dir (Py.basename src)); [|done].
  destruct (Os.move fs1 src _); [|done].
  by injection Hrel as <- <-.
Qed.

(** A successful [move_current] or [hold] files away the item under the
    cursor and records an entry with its path and position. *)
Lemma step_done a w w' :
  step a w = (w', Done) →
  ∃ src op fs, current_item (app w) = Some src ∧ w' = record op fs w
               ∧ op_src op = src ∧ op_position op = current_index (app w).
Proof.
  destruct a as [k|]; simpl; unfold move_current, hold;
    destruct (current_item (app w)) as [src|] eqn:Hcur; try done.
  - destruct (assoc k _); [|done].
    destruct (negb _); [done|].
    intros (op & fs & ? & ? & ?)%file_away_done. by exists src, op, fs.
  - destruct (negb _); [done|].
    intros (op & fs & ? & ? & ?)%file_away_done. by exists src, op, fs.
Qed.

(** A successful [undo] pops the newest entry and puts its source back. *)
Lemma undo_done b w w' :
  undo b w = (w', Done) →
  ∃ rest op,
    undo_stack (app w) = rest ++ [op]
    ∧ let o := app w in
      let i := if len (cv_list o) <? op_position op then len (cv_list o)
               else op_position op in
      app w' = {| cv_list := list_insert_at i (op_src op) (cv_list o);
                  current_index := i;
                  undo_stack := rest;
                  base_folder := base_folder o;
                  cand_email_map := cand_email_map o;
                  config := config o |}.
Proof.
  unfold undo.
  destruct (list_pop_last _) as [[rest op]|] eqn:Hpop; [|done].
  apply list_pop_last_Some in Hpop.
  unfold restore; simpl.
  destruct (Os.makedirs _ _) as [fs1 []]; simpl; [|done].
  destruct (negb _); [done|].
  intros H. exists rest, op. split; [done|]. simpl.
  destruct (Os.path_exists fs1 (op_src op)).
  - destruct b; [|done].
    destruct (Os.remove _ _); [|done].
    destruct (Os.move _ _ _); [|done].
    injection H as <-. by rewrite app_save_session_state.
  - destruct (Os.move _ _ _); [|done].
    injection H as <-. by rewrite app_save_session_state.
Qed.

(** C10. Frame of a successful [move_current] or [hold]: exactly the item at
    [current_index] leaves [cv_list], the items before and after it keep
    their values and order, and [base_folder], [cand_email_map] and the
    configuration are unchanged. *)
Theorem step_frame a w w' :
  step a w = (w', Done) →
  (∃ pre x post,
      cv_list (app w) = pre ++ x :: post
      ∧ len pre = current_index (app w)
      ∧ cv_list (app w') = pre ++ post)
  ∧ base_folder (app w') = base_folder (app w)
  ∧ cand_email_map (app w') = cand_email_map (app w)
  ∧ config (app w') = config (app w).
Proof.
  intros (src & op & fs & Hcur & -> & _ & _)%step_done.
  apply current_item_Some in Hcur as [Hrange Hsrc].
  unfold record. rewrite app_save_session_state. simpl.
  split; [|done].
  destruct (list_pop_middle _ _ _ (proj1 Hrange) Hsrc) as (pre & post & ? & ? & ?).
  by exists pre, src, post.
Qed.

Lemma step_frame_witness :
  step (MoveCurrent "1") opened = ((step (MoveCurrent "1") opened).1, Done)
  ∧ cv_list (app (step (MoveCurrent "1") opened).1) = ["/cv/b.pdf"]
  ∧ base_folder (app (step (MoveCurrent "1") opened).1) = "/cv".
Proof.
  assert (step (MoveCurrent "1") opened
          = ((step (MoveCurrent "1") opened).1, Done)) as Hstep
    by (vm_compute; reflexivity).
  split; [exact Hstep|].
  destruct (step_frame _ _ _ Hstep) as ((pre & x & post & _ & _ & _) & Hbase & _).
  split; [vm_compute; reflexivity|].
  rewrite Hbase. vm_compute; reflexivity.
Defined.

(** ** Undo *)

Lemma push_bounded_room limit op stack :
  len stack < limit → push_bounded limit op stack = stack ++ [op].
Proof.
  intros H. unfold push_bounded. rewrite len_app.
  change (len [op]) with 1.
  by destruct (Z.ltb_spec limit (len stack + 1)); [lia|].
Qed.

Lemma organizer_eta o :
  {| cv_list := cv_list o; current_index := current_index o;
     undo_stack := undo_stack o; base_folder := base_folder o;
     cand_email_map := cand_email_map o; config := config o |} = o.
Proof. by destruct o. Qed.

(** [undo] right after a filing that did not overflow the ledger brings the
    organizer back, whatever the two calls did to the disk. *)
Lemma undo_step a b w w1 w1' w2 :
  step a w = (w1, Done) →
  len (undo_stack (app w)) < max_undo (config (app w)) →
  app w1' = app w1 →
  undo b w1' = (w2, Done) →
  app w2 = app w.
Proof.
  intros (src & op & fs & Hcur & -> & Hsrc & Hpos)%step_done Hroom Happ.
  intros (rest & op' & Hstack & Hw2)%undo_done.
  apply current_item_Some in Hcur as [Hrange Hlook].
  destruct (list_pop_middle _ _ _ (proj1 Hrange) Hlook)
    as (pre & post & Hcv & Hpre & Hpop).
  unfold record in Happ. rewrite app_save_session_state in Happ.
  rewrite Happ in Hstack, Hw2. simpl in Hstack, Hw2.
  rewrite push_bounded_room in Hstack by done.
  apply app_inj_tail in Hstack as [<- <-].
  rewrite Hw2, Hpop, Hpos, <- Hpre, Hsrc.
  pose proof (len_nonneg post).
  destruct (Z.ltb_spec (len (pre ++ post)) (len pre)) as [Hlt|_].
  { rewrite len_app in Hlt. lia. }
  rewrite list_insert_at_middle, <- Hcv, Hpre.
  apply organizer_eta.
Qed.

Lemma undo_all_snoc answers b w :
  undo_all (answers ++ [b]) w
  = match undo_all answers w with
    | Some w' => match undo b w' with (w'', Done) => Some w'' | _ => None end
    | None => None
    end.
Proof.
  revert w. induction answers as [|c answers IH]; intros w; simpl.
  - by destruct (undo b w) as [w' []].
  - destruct (undo c w) as [w' []]; auto.
Qed.

Lemma step_ledger_room a w w' :
  step a w = (w', Done) →
  len (undo_stack (app w)) < max_undo (config (app w)) →
  config (app w') = config (app w)
  ∧ len (undo_stack (app w')) = len (undo_stack (app w)) + 1.
Proof.
  intros (src & op & fs & _ & -> & _)%step_done Hroom.
  unfold record. rewrite app_save_session_state. simpl.
  split; [done|]. rewrite push_bounded_room by done. by rewrite len_app.
Qed.

Lemma run_undo_all acts :
  ∀ w w1 answers w1' w2,
    run acts w = Some w1 →
    len (undo_stack (app w)) + len acts ≤ max_undo (config (app w)) →
    app w1' = app w1 →
    length answers = length acts →
    undo_all answers w1' = Some w2 →
    app w2 = app w.
Proof.
  induction acts as [|a acts IH]; intros w w1 answers w1' w2 Hrun Hroom Happ Hlen Hundo.
  - destruct answers; [|done]. simpl in *. congruence.
  - simpl in Hrun. destruct (step a w) as [wa r] eqn:Hstep.
    destruct r; try done.
    change (len (a :: acts)) with (Z.of_nat (S (length acts))) in Hroom.
    pose proof (len_nonneg acts) as Hacts. unfold len in Hacts, Hroom.
    destruct (step_ledger_room _ _ _ Hstep) as [Hcfg Hgrow];
      [unfold len in *; lia|].
    destruct (decide (answers = [])) as [->|Hne]; [done|].
    destruct (exists_last Hne) as (ans & b & ->).
    rewrite length_app in Hlen. simpl in Hlen.
    rewrite undo_all_snoc in Hundo.
    destruct (undo_all ans w1') as [wm|] eqn:Hans; [|done].
    destruct (undo b wm) as [w2' r] eqn:Hb. destruct r; try done.
    injection Hundo as ->.
    assert (app wm = app wa) as Hwm.
    { eapply IH; eauto; [|lia]. rewrite Hcfg, Hgrow. unfold len in *. lia. }
    eapply undo_step; [exact Hstep| |exact Hwm|exact Hb].
    unfold len in *. lia.
Qed.

(** C1. From a queue [Q] with the cursor on its first item and an empty
    ledger, any run of at most [max_undo] successful [move_current] / [hold]
    operations followed by one successful [undo] per operation leaves
    [cv_list] equal to [Q], in the same order, and [undo_stack] empty (the
    cursor is back on the first item too). *)
Theorem undo_restores_queue Q acts answers w w1 w2 :
  cv_list (app w) = Q →
  current_index (app w) = 0 →
  undo_stack (app w) = [] →
  len acts ≤ max_undo (config (app w)) →
  run acts w = Some w1 →
  length answers = length acts →
  undo_all answers w1 = Some w2 →
  cv_list (app w2) = Q ∧ undo_stack (app w2) = [] ∧ current_index (app w2) = 0.
Proof.
  intros HQ Hidx Hstack Hmax Hrun Hlen Hundo.
  assert (app w2 = app w) as ->; [|done].
  eapply run_undo_all; eauto. rewrite Hstack. by change (len []) with 0.
Qed.

Lemma undo_restores_queue_witness :
  cv_list (app opened) = ["/cv/a.pdf"; "/cv/b.pdf"]
  ∧ current_index (app opened) = 0
  ∧ undo_stack (app opened) = []
  ∧ len two_filings ≤ max_undo (config (app opened))
  ∧ run two_filings opened = Some filed
  ∧ length [false; false] = length two_filings
  ∧ undo_all [false; false] filed = Some undone
  ∧ cv_list (app undone) = ["/cv/a.pdf"; "/cv/b.pdf"]
  ∧ undo_stack (app undone) = []
  ∧ current_index (app undone) = 0.
Proof.
  assert (cv_list (app opened) = ["/cv/a.pdf"; "/cv/b.pdf"]) as H1
    by (vm_compute; reflexivity).
  assert (current_index (app opened) = 0) as H2 by (vm_compute; reflexivity).
  assert (undo_stack (app opened) = []) as H3 by (vm_compute; reflexivity).
  assert (len two_filings ≤ max_undo (config (app opened))) as H4
    by (vm_compute; discriminate).
  assert (run two_filings opened = Some filed) as H5 by (vm_compute; reflexivity).
  assert (length [false; false] = length two_filings) as H6 by reflexivity.
  assert (undo_all [false; false] filed = Some undone) as H7
    by (vm_compute; reflexivity).
  do 7 (split; [assumption|]).
  exact (undo_restores_queue _ _ _ _ _ _ H1 H2 H3 H4 H5 H6 H7).
Defined.

(** ** The bounded ledger *)

Lemma keep_last_short {A} n (l : list A) : len l ≤ n → keep_last n l = l.
Proof.
  intros H. unfold keep_last, len in *.
  by replace (length l - Z.to_nat n)%nat with 0%nat by lia.
Qed.

Lemma len_keep_last {A} n (l : list A) : 0 ≤ n → len (keep_last n l) = Z.min n (len l).
Proof. intros H. unfold keep_last, len. rewrite length_drop. lia. Qed.

Lemma keep_last_app {A} n (l j : list A) :
  0 ≤ n → keep_last n (keep_last n l ++ j) = keep_last n (l ++ j).
Proof.
  intros Hn. unfold keep_last.
  destruct (decide (length l ≤ Z.to_nat n)%nat) as [Hle|Hgt].
  { by replace (length l - Z.to_nat n)%nat with 0%nat by lia. }
  rewrite length_app, length_drop.
  replace (length l - (length l - Z.to_nat n) + length j - Z.to_nat n)%nat
    with (length j) by lia.
  rewrite <- (drop_app_le l j) by lia.
  rewrite drop_drop, length_app. f_equal. lia.
Qed.

Lemma push_bounded_keep_last limit op stack :
  1 ≤ limit → len stack ≤ limit →
  push_bounded limit op stack = keep_last limit (stack ++ [op]).
Proof.
  intros H1 Hle. unfold push_bounded, keep_last. rewrite len_app.
  change (len [op]) with 1. rewrite length_app. simpl.
  destruct (Z.ltb_spec limit (len stack + 1)); unfold len in *.
  - f_equal. lia.
  - by replace (length stack + 1 - Z.to_nat limit)%nat with 0%nat by lia.
Qed.

Lemma last_push_bounded limit op stack :
  1 ≤ limit → last (push_bounded limit op stack) = Some op.
Proof.
  intros H1. unfold push_bounded. rewrite len_app. change (len [op]) with 1.
  destruct (Z.ltb_spec limit (len stack + 1)); [|apply last_snoc].
  destruct stack as [|x stack]; [unfold len in *; simpl in *; lia|].
  simpl. rewrite drop_0. apply last_snoc.
Qed.

(** With room for at least one entry, a successful action records the entry
    built from the item under the cursor. *)
Lemma recorded_by_done a w w' :
  step a w = (w', Done) →
  1 ≤ max_undo (config (app w)) →
  ∃ op pre post,
    recorded_by a w = Some op
    ∧ cv_list (app w) = pre ++ op_src op :: post
    ∧ cv_list (app w') = pre ++ post
    ∧ config (app w') = config (app w)
    ∧ undo_stack (app w')
      = push_bounded (max_undo (config (app w))) op (undo_stack (app w)).
Proof.
  intros Hstep H1. unfold recorded_by. rewrite Hstep.
  apply step_done in Hstep as (src & op & fs & Hcur & -> & <- & _).
  apply current_item_Some in Hcur as [Hrange Hlook].
  destruct (list_pop_middle _ _ _ (proj1 Hrange) Hlook)
    as (pre & post & Hcv & _ & Hpop).
  exists op, pre, post.
  unfold record. rewrite app_save_session_state. simpl.
  by rewrite last_push_bounded.
Qed.

(** The ledger always holds the newest [max_undo] recorded entries. *)
Lemma ledger_keeps_newest acts :
  ∀ w w',
    run acts w = Some w' →
    1 ≤ max_undo (config (app w)) →
    len (undo_stack (app w)) ≤ max_undo (config (app w)) →
    undo_stack (app w')
    = keep_last (max_undo (config (app w))) (undo_stack (app w) ++ journal acts w)
    ∧ length (journal acts w) = length acts.
Proof.
  induction acts as [|a acts IH]; intros w w' Hrun H1 Hle.
  - injection Hrun as <-. simpl. rewrite app_nil_r.
    by rewrite keep_last_short.
  - simpl in Hrun. destruct (step a w) as [wa r] eqn:Hstep.
    destruct r; try done.
    destruct (recorded_by_done _ _ _ Hstep H1)
      as (op & pre & post & Hrec & _ & _ & Hcfg & Hstack).
    rewrite push_bounded_keep_last in Hstack by done.
    destruct (IH wa w' Hrun) as [Hw' Hlen].
    { by rewrite Hcfg. }
    { rewrite Hcfg, Hstack, len_keep_last by lia. lia. }
    simpl. rewrite Hstep, Hrec. simpl. split; [|by rewrite Hlen].
    rewrite Hw', Hcfg, Hstack, keep_last_app by lia.
    by rewrite <- app_assoc.
Qed.

(** The entries recorded from a queue without duplicates have pairwise
    different sources, all taken from that queue. *)
Lemma journal_sources acts :
  ∀ w w',
    run acts w = Some w' →
    1 ≤ max_undo (config (app w)) →
    NoDup (cv_list (app w)) →
    NoDup (op_src <$> journal acts w)
    ∧ ∀ op, op ∈ journal acts w → op_src op ∈ cv_list (app w).
Proof.
  induction acts as [|a acts IH]; intros w w' Hrun H1 Hnd.
  - simpl. split; [constructor|]. intros op Hop. by apply elem_of_nil in Hop.
  - simpl in Hrun. destruct (step a w) as [wa r] eqn:Hstep.
    destruct r; try done.
    destruct (recorded_by_done _ _ _ Hstep H1)
      as (op & pre & post & Hrec & Hcv & Hcva & Hcfg & _).
    rewrite Hcv in Hnd.
    apply NoDup_app in Hnd as (Hpre & Hdisj & Hpost).
    apply NoDup_cons in Hpost as [Hsrc Hpost].
    destruct (IH wa w' Hrun) as [IHnd IHin].
    { by rewrite Hcfg. }
    { rewrite Hcva. apply NoDup_app. split_and!; [done| |done].
      intros x Hx Hx'. apply (Hdisj x Hx). by right. }
    simpl. rewrite Hstep, Hrec. simpl. split.
    + apply NoDup_cons. split; [|done].
      intros (op' & Heq & Hin)%list_elem_of_fmap.
      apply IHin in Hin. rewrite Hcva, <- Heq in Hin.
      apply elem_of_app in Hin as [Hin|Hin]; [|done].
      apply (Hdisj _ Hin). by left.
    + intros op' [->|Hin]%elem_of_cons.
      * rewrite Hcv. apply elem_of_app. right. by left.
      * apply IHin in Hin. rewrite Hcv. rewrite Hcva in Hin.
        apply elem_of_app in Hin as [Hin|Hin]; apply elem_of_app;
          [by left|right; by right].
Qed.

(** C3. With [max_undo >= 1] and an empty ledger, after [max_undo + 1]
    successful [move_current] / [hold] operations [undo_stack] holds exactly
    [max_undo] entries: those recorded by the operations after the first, in
    order. The entry recorded by the first operation has been dropped; when
    the queue has no duplicate path no retained entry is equal to it. *)
Theorem ledger_evicts_oldest acts w w' :
  undo_stack (app w) = [] →
  1 ≤ max_undo (config (app w)) →
  len acts = max_undo (config (app w)) + 1 →
  run acts w = Some w' →
  len (undo_stack (app w')) = max_undo (config (app w))
  ∧ (∃ first, journal acts w = first :: undo_stack (app w')
       ∧ (NoDup (cv_list (app w)) → first ∉ undo_stack (app w'))).
Proof.
  intros Hempty H1 Hlen Hrun.
  destruct (ledger_keeps_newest acts w w' Hrun H1) as [Hstack Hj].
  { rewrite Hempty. change (len []) with 0. lia. }
  rewrite Hempty in Hstack. simpl in Hstack.
  unfold keep_last in Hstack. rewrite Hj in Hstack.
  replace (length acts - Z.to_nat (max_undo (config (app w))))%nat with 1%nat
    in Hstack by (unfold len in Hlen; lia).
  destruct (journal acts w) as [|first rest] eqn:Hjournal.
  { simpl in Hj. unfold len in Hlen. lia. }
  simpl in Hstack. rewrite drop_0 in Hstack. subst rest.
  split.
  { simpl in Hj. unfold len in *. lia. }
  exists first. split; [done|].
  intros Hnd Hin.
  destruct (journal_sources acts w w' Hrun H1 Hnd) as [Hsrc _].
  rewrite Hjournal in Hsrc. simpl in Hsrc.
  apply NoDup_cons in Hsrc as [Hfirst _].
  apply Hfirst. apply list_elem_of_fmap. by exists first.
Qed.

Lemma ledger_evicts_oldest_witness :
  undo_stack (app opened_one_undo) = []
  ∧ 1 ≤ max_undo (config (app opened_one_undo))
  ∧ len two_filings = max_undo (config (app opened_one_undo)) + 1
  ∧ run two_filings opened_one_undo = Some filed_one_undo
  ∧ len (undo_stack (app filed_one_undo)) = 1
  ∧ undo_stack (app filed_one_undo) = [hold_b].
Proof.
  assert (undo_stack (app opened_one_undo) = []) as H1
    by (vm_compute; reflexivity).
  assert (1 ≤ max_undo (config (app opened_one_undo))) as H2
    by (vm_compute; discriminate).
  assert (len two_filings = max_undo (config (app opened_one_undo)) + 1) as H3
    by (vm_compute; reflexivity).
  assert (run two_filings opened_one_undo = Some filed_one_undo) as H4
    by (vm_compute; reflexivity).
  do 4 (split; [assumption|]).
  destruct (ledger_evicts_oldest _ _ _ H1 H2 H3 H4) as [Hlen _].
  split; [exact Hlen|vm_compute; reflexivity].
Defined.

(** ** The CvQueue invariant *)

Lemma NoDup_omap_inj {A B} (f : A → option B) l :
  (∀ x y z, f x = Some z → f y = Some z → x = y) →
  NoDup l → NoDup (omap f l).
Proof.
  intros Hinj. induction 1 as [|x l Hx Hl IH]; simpl; [constructor|].
  destruct (f x) as [z|] eqn:Hfx; [|done].
  apply NoDup_cons. split; [|done].
  intros (y & Hy & Hfy)%list_elem_of_omap.
  by rewrite (Hinj x y z Hfx Hfy) in Hx.
Qed.

Lemma strip_prefix_Some p s r : Py.strip_prefix p s = Some r → s = p +:+ r.
Proof.
  revert s. induction p as [|a p IH]; intros s; simpl.
  - intros [= ->]. reflexivity.
  - destruct s as [|b s]; [done|].
    case_bool_decide as Hab; [|done]. intros Hr%IH. subst. reflexivity.
Qed.

Lemma entry_name_Some d k n :
  Os.entry_name d k = Some n →
  k = Py.join d "" +:+ n ∧ Py.startswith "/" n = false.
Proof.
  unfold Os.entry_name.
  destruct (Py.strip_prefix _ k) as [n'|] eqn:Hk; [|done].
  destruct (bool_decide (n' = "") || Py.contains_char Py.sep n') eqn:Hn; [done|].
  intros [= <-]. split; [by apply strip_prefix_Some|].
  apply orb_false_iff in Hn as [_ Hn].
  destruct n' as [|c n']; [done|]. simpl in *.
  apply orb_false_iff in Hn as [Hc _].
  apply bool_decide_eq_false in Hc.
  rewrite andb_true_r. apply bool_decide_eq_false. by intros <-.
Qed.

Lemma listdir_NoDup fs d : NoDup (Os.listdir fs d).
Proof.
  apply NoDup_omap_inj; [|apply NoDup_fst_map_to_list].
  intros x y z [-> _]%entry_name_Some [-> _]%entry_name_Some. done.
Qed.

Lemma listdir_relative fs d n :
  n ∈ Os.listdir fs d → Py.startswith "/" n = false.
Proof.
  intros (k & _ & Hk)%list_elem_of_omap. by apply entry_name_Some in Hk as [_ ?].
Qed.

Lemma join_relative_inj d x y :
  Py.startswith "/" x = false → Py.startswith "/" y = false →
  Py.join d x = Py.join d y → x = y.
Proof.
  unfold Py.join. intros -> ->.
  destruct (_ || _); intros H.
  - by apply (inj _) in H.
  - apply (inj _) in H. by apply (inj (String.app "/")) in H.
Qed.

Lemma glob_NoDup fs pathname : NoDup (Os.glob fs pathname).
Proof.
  unfold Os.glob. destruct (Py.split pathname) as [dirname pattern].
  apply NoDup_fmap_2_strong.
  - intros x y [_ Hx]%list_elem_of_filter [_ Hy]%list_elem_of_filter.
    destruct (Os.isdir fs dirname); [|by apply elem_of_nil in Hx].
    apply join_relative_inj; by eapply listdir_relative.
  - apply NoDup_filter. destruct (Os.isdir fs dirname); [|constructor].
    apply listdir_NoDup.
Qed.

Lemma sorted_NoDup l : NoDup l → NoDup (Os.sorted l).
Proof.
  intros H. unfold Os.sorted.
  by rewrite (merge_sort_Permutation String.le l).
Qed.

Lemma list_insert_at_perm {A} i (x : A) l : list_insert_at i x l ≡ₚ x :: l.
Proof.
  unfold list_insert_at. rewrite <- Permutation_middle.
  by rewrite take_drop.
Qed.

Lemma len_list_insert_at {A} i (x : A) l : len (list_insert_at i x l) = len l + 1.
Proof.
  unfold len. rewrite (Permutation_length (list_insert_at_perm i x l)).
  simpl. lia.
Qed.

Lemma cursor_ok_adjust pre (x : string) post idx :
  0 ≤ idx < len (pre ++ x :: post) →
  cursor_ok (pre ++ post) (adjust_index idx (pre ++ post)).
Proof.
  rewrite len_app. change (len (x :: post)) with (Z.of_nat (S (length post))).
  intros Hidx. unfold cursor_ok, adjust_index.
  destruct (pre ++ post) as [|y l] eqn:Heq; [done|].
  rewrite <- Heq, len_app.
  assert (0 < len pre + len post).
  { rewrite <- len_app, Heq. unfold len. simpl. lia. }
  destruct (Z.leb_spec (len pre + len post) idx); unfold len in *; lia.
Qed.

Lemma ledger_ok_push limit op pre post stack :
  0 ≤ op_position op →
  ledger_ok (pre ++ op_src op :: post) stack →
  ledger_ok (pre ++ post) (push_bounded limit op stack).
Proof.
  intros Hpos [Hnd Hall].
  assert (ledger_ok (pre ++ post) (stack ++ [op])) as [Hnd' Hall'].
  { split.
    - rewrite fmap_app. simpl.
      assert ((pre ++ post) ++ (op_src <$> stack) ++ [op_src op]
              ≡ₚ (pre ++ op_src op :: post) ++ (op_src <$> stack)) as ->; [|done].
      rewrite <- !app_assoc. apply Permutation_app_head. simpl.
      rewrite app_assoc. symmetry. apply Permutation_cons_append.
    - apply Forall_app. split; [done|]. by constructor. }
  unfold push_bounded. destruct (_ <? _); [|done]. split.
  - apply (sublist_NoDup _ _ Hnd').
    apply sublist_app; [done|]. rewrite fmap_drop. apply sublist_drop.
  - by apply Forall_drop.
Qed.

Lemma ledger_ok_pop cv stack op : ledger_ok cv (stack ++ [op]) → ledger_ok cv stack.
Proof.
  intros [Hnd Hall]. split.
  - apply (sublist_NoDup _ _ Hnd).
    apply sublist_app; [done|]. rewrite fmap_app. by apply sublist_inserts_r.
  - by apply Forall_app in Hall as [? _].
Qed.

Lemma ledger_ok_restore i cv stack op :
  ledger_ok cv (stack ++ [op]) →
  ledger_ok (list_insert_at i (op_src op) cv) stack.
Proof.
  intros [Hnd Hall]. split.
  - rewrite list_insert_at_perm. rewrite fmap_app in Hnd. simpl in Hnd.
    assert ((op_src op :: cv) ++ (op_src <$> stack)
            ≡ₚ cv ++ (op_src <$> stack) ++ [op_src op]) as ->; [|done].
    simpl. rewrite app_assoc. apply Permutation_cons_append.
  - by apply Forall_app in Hall as [? _].
Qed.

Lemma queue_inv_of_organizer_inv o : organizer_inv o → queue_inv o.
Proof.
  intros [Hcur [Hnd _]]. split; [|done]. by apply NoDup_app in Hnd as [? _].
Qed.

Lemma world_inv_save w : world_inv w → world_inv (save_session_state w).
Proof.
  intros [Ho Hs]. unfold save_session_state. case_bool_decide; [done|].
  split; [done|]. exact Ho.
Qed.

Lemma world_inv_record op fs w src :
  world_inv w →
  current_item (app w) = Some src →
  op_src op = src → op_position op = current_index (app w) →
  world_inv (record op fs w).
Proof.
  intros [[Hcur Hled] Hs] Hitem Hsrc Hpos.
  apply current_item_Some in Hitem as [Hrange Hlook].
  destruct (list_pop_middle _ _ _ (proj1 Hrange) Hlook)
    as (pre & post & Hcv & _ & Hpop).
  apply world_inv_save. split; [|done]. unfold organizer_inv. simpl.
  rewrite Hpop. rewrite Hcv in Hrange, Hled. subst src. split.
  - by eapply cursor_ok_adjust.
  - apply ledger_ok_push; [lia|done].
Qed.

Lemma step_not_done a w w' r :
  step a w = (w', r) → r ≠ Done →
  app w' = app w ∧ state_file w' = state_file w.
Proof.
  assert (∀ kind reason dest_dir src,
    file_away kind reason dest_dir src w = (w', r) → r ≠ Done →
    app w' = app w ∧ state_file w' = state_file w) as Hfile.
  { intros kind reason dest_dir src. unfold file_away.
    destruct (relocate _ _ _ _ _) as [fs [op|]]; intros [= <- <-]; done. }
  destruct a as [k|]; simpl; unfold move_current, hold;
    destruct (current_item (app w)); try (by intros [= <- <-]).
  - destruct (assoc k _); [|by intros [= <- <-]].
    destruct (negb _); [by intros [= <- <-]|]. apply Hfile.
  - destruct (negb _); [by intros [= <- <-]|]. apply Hfile.
Qed.

Lemma world_inv_step a w : world_inv w → world_inv (step a w).1.
Proof.
  intros Hw. destruct (step a w) as [w' r] eqn:Hstep. simpl.
  destruct (decide (r = Done)) as [->|Hr].
  - apply step_done in Hstep as (src & op & fs & Hcur & -> & Hsrc & Hpos).
    by eapply world_inv_record.
  - destruct (step_not_done _ _ _ _ Hstep Hr) as [Happ Hfile].
    destruct Hw as [Ho Hs]. split; [by rewrite Happ|].
    unfold state_file_inv. by rewrite Hfile.
Qed.

Lemma world_inv_restore b op w :
  cursor_ok (cv_list (app w)) (current_index (app w)) →
  ledger_ok (cv_list (app w)) (undo_stack (app w) ++ [op]) →
  state_file_inv w →
  world_inv (restore b op w).1.
Proof.
  intros Hcur Hled Hs.
  assert (∀ fs, world_inv (with_disk fs w)) as Hsame.
  { intros fs. split; [|done]. split; [done|]. by eapply ledger_ok_pop. }
  set (i := if len (cv_list (app w)) <? op_position op
            then len (cv_list (app w)) else op_position op).
  assert (∀ fs3, world_inv (save_session_state
    {| app := {| cv_list := list_insert_at i (op_src op) (cv_list (app w));
                 current_index := i;
                 undo_stack := undo_stack (app w);
                 base_folder := base_folder (app w);
                 cand_email_map := cand_email_map (app w);
                 config := config (app w) |};
       disk := fs3; state_file := state_file w |})) as Hdone.
  { intros fs3. apply world_inv_save. split; [|done]. split; simpl.
    - pose proof (len_nonneg (cv_list (app w))) as Hlen.
      destruct Hled as [_ Hall]. apply Forall_app in Hall as [_ Hop].
      rewrite Forall_singleton in Hop.
      assert (0 ≤ i ≤ len (cv_list (app w))) as Hi.
      { unfold i.
        destruct (Z.ltb_spec (len (cv_list (app w))) (op_position op)); lia. }
      unfold cursor_ok.
      destruct (list_insert_at i (op_src op) (cv_list (app w))) eqn:Heq.
      + apply (f_equal len) in Heq. rewrite len_list_insert_at in Heq.
        change (len []) with 0 in Heq. lia.
      + rewrite <- Heq, len_list_insert_at. lia.
    - by apply ledger_ok_restore. }
  unfold restore. fold i.
  destruct (Os.makedirs (disk w) (Py.dirname (op_src op))) as [fs1 ok].
  destruct ok; simpl; [|apply Hsame].
  destruct (negb (Os.path_exists fs1 (op_dest op))); [apply Hsame|].
  destruct (Os.path_exists fs1 (op_src op));
    [destruct b; [destruct (Os.remove fs1 (op_src op)) as [fs2|]|]|];
    try apply Hsame.
  - destruct (Os.move fs2 (op_dest op) (op_src op)); [apply Hdone|apply Hsame].
  - destruct (Os.move fs1 (op_dest op) (op_src op)); [apply Hdone|apply Hsame].
Qed.

Lemma world_inv_undo b w : world_inv w → world_inv (undo b w).1.
Proof.
  intros [[Hcur Hled] Hs]. unfold undo.
  destruct (list_pop_last _) as [[rest op]|] eqn:Hpop; [|done].
  apply list_pop_last_Some in Hpop. rewrite Hpop in Hled.
  by apply world_inv_restore.
Qed.

Lemma world_inv_open_folder d w : world_inv w → world_inv (open_folder d w).1.
Proof.
  intros Hw. unfold open_folder. case_bool_decide; [done|]. simpl.
  apply world_inv_save. split; [|by destruct Hw]. split; simpl.
  - destruct (Os.sorted _); [done|]. unfold cursor_ok, len. simpl. lia.
  - split; [|constructor]. simpl. rewrite app_nil_r.
    apply sorted_NoDup, glob_NoDup.
Qed.

Lemma world_inv_import_emails f w : world_inv w → world_inv (import_emails f w).1.
Proof.
  intros Hw. unfold import_emails. case_bool_decide; [done|].
  destruct f as [f|]; [|done].
  destruct (fieldnames f); [|done].
  destruct (_ || _); [done|].
  destruct (import_rows _ _) as [i []]; simpl.
  - apply world_inv_save. by destruct Hw.
  - by destruct Hw.
Qed.

Lemma world_inv_export_csv p w : world_inv w → world_inv (export_csv p w).1.1.
Proof.
  intros Hw. unfold export_csv. case_bool_decide; [done|].
  destruct (negb _); [done|].
  destruct (export_rows w); [done|].
  case_bool_decide; [done|].
  by destruct (Os.write_file _ _).
Qed.

Lemma world_inv_startup cfg w : world_inv w → world_inv (startup cfg w).
Proof.
  intros [_ Hs]. unfold state_file_inv in Hs.
  unfold world_inv, state_file_inv, startup, load_session_state. simpl.
  destruct (state_file w) as [s|] eqn:Hfile; simpl.
  - split; [|done]. destruct Hs as [Hcur Hled].
    split; simpl; [|done].
    unfold cursor_ok in *. destruct (snap_cv_list s) as [|x cv] eqn:Hcv.
    + by rewrite Hcur.
    + destruct (Z.leb_spec (len (x :: cv)) (snap_current_index s)); [lia|done].
  - split; [|done]. split; simpl; [done|].
    split; constructor.
Qed.

Lemma reachable_world_inv w : reachable w → world_inv w.
Proof.
  induction 1 as [cfg fs| | | | | | | | |].
  - split; [|done]. split; simpl; [done|]. split; constructor.
  - by apply world_inv_open_folder.
  - by apply (world_inv_step (MoveCurrent _)).
  - by apply (world_inv_step HoldCurrent).
  - by apply world_inv_undo.
  - by apply world_inv_import_emails.
  - by apply world_inv_export_csv.
  - by apply world_inv_save.
  - done.
  - by apply world_inv_startup.
Qed.

(** C4, as the code has it. The CvQueue invariant (no duplicate path; the
    cursor is -1 on an empty queue and a valid index otherwise) holds in
    every world the application reaches: after [open_folder],
    [move_current], [hold] and [undo], whatever happens to the files on
    disk, and after [load_session_state] at start-up when the state file is
    absent or is one the application wrote. *)
Theorem queue_invariant w : reachable w → queue_inv (app w).
Proof.
  intros [Ho _]%reachable_world_inv. by apply queue_inv_of_organizer_inv.
Qed.

Lemma queue_invariant_witness :
  reachable (undo false (hold (move_current "1" opened).1).1).1
  ∧ queue_inv (app (undo false (hold (move_current "1" opened).1).1).1).
Proof.
  assert (reachable (undo false (hold (move_current "1" opened).1).1).1) as H.
  { apply reach_undo, reach_hold, reach_move_current.
    unfold opened. apply reach_open_folder, reach_fresh. }
  split; [exact H|exact (queue_invariant _ H)].
Defined.

(** C4, as stated, fails for [load_session_state]: the stored list replaces
    [cv_list] as it is, and a state file with a path twice gives a queue
    with a duplicate. *)
Lemma load_session_state_keeps_duplicates :
  ¬ queue_inv (app (load_session_state duplicated_session)).
Proof.
  intros [Hnd _]. simpl in Hnd.
  apply NoDup_cons in Hnd as [Hin _]. apply Hin. by left.
Qed.

(** ** unique_dest *)

Lemma string_app_cons c s t : String c s +:+ t = String c (s +:+ t).
Proof. reflexivity. Qed.

Lemma string_app_nil_r s : s +:+ "" = s.
Proof. induction s as [|c s IH]; [done|]. by rewrite string_app_cons, IH. Qed.

Lemma string_app_assoc s t u : (s +:+ t) +:+ u = s +:+ t +:+ u.
Proof. induction s as [|c s IH]; [done|]. by rewrite !string_app_cons, IH. Qed.

Lemma string_length_app s t :
  String.length (s +:+ t) = (String.length s + String.length t)%nat.
Proof.
  induction s as [|c s IH]; [done|]. rewrite string_app_cons. simpl. by rewrite IH.
Qed.

Lemma string_app_inj_r s1 s2 t : s1 +:+ t = s2 +:+ t → s1 = s2.
Proof.
  revert s2. induction s1 as [|c s1 IH]; intros [|c' s2] H.
  - done.
  - apply (f_equal String.length) in H.
    rewrite !string_length_app in H. simpl in H. lia.
  - apply (f_equal String.length) in H.
    rewrite !string_length_app in H. simpl in H. lia.
  - rewrite !string_app_cons in H. injection H as -> H. f_equal. by apply IH.
Qed.

Lemma rsplit_Some x s h t : Py.rsplit x s = Some (h, t) → s = h +:+ String x t.
Proof.
  revert h. induction s as [|c s IH]; intros h; simpl; [done|].
  destruct (Py.rsplit x s) as [[h' t']|].
  - intros [= <- <-]. rewrite string_app_cons. f_equal. by apply IH.
  - case_bool_decide as Hc; [|done]. by intros [= <- <-]; subst.
Qed.

Lemma splitext_app p : (Py.splitext p).1 +:+ (Py.splitext p).2 = p.
Proof.
  unfold Py.splitext.
  assert (∃ d f, match Py.rsplit Py.sep p with
                 | Some (h, t) => (h +:+ "/", t)
                 | None => ("", p)
                 end = (d, f) ∧ p = d +:+ f) as (d & f & -> & Hp).
  { destruct (Py.rsplit Py.sep p) as [[h t]|] eqn:Hs.
    - exists (h +:+ "/"), t. split; [done|].
      rewrite string_app_assoc. by apply rsplit_Some in Hs.
    - by exists "", p. }
  destruct (Py.rsplit Py.extsep f) as [[stem e]|] eqn:Hf; simpl.
  - destruct (Py.all_chars Py.extsep stem); simpl.
    + apply string_app_nil_r.
    + apply rsplit_Some in Hf. by rewrite string_app_assoc, <- Hf.
  - apply string_app_nil_r.
Qed.

Lemma splitext_base_empty p : (Py.splitext p).1 = "" → (Py.splitext p).2 = "".
Proof.
  unfold Py.splitext.
  destruct (match Py.rsplit Py.sep p with
            | Some (h, t) => (h +:+ "/", t)
            | None => ("", p)
            end) as [d f].
  destruct (Py.rsplit Py.extsep f) as [[stem e]|]; simpl; [|done].
  destruct (Py.all_chars Py.extsep stem) eqn:Hdots; simpl; [done|].
  intros Hempty. destruct d; [|done]. destruct stem; done.
Qed.

Section candidates.
Context (fs : filesystem) (directory name : string).

Local Abbreviation base := (Py.splitext name).1.
Local Abbreviation ext := (Py.splitext name).2.
Local Abbreviation cand := (candidate name).

Lemma cand_inj i j : cand i = cand j → i = j.
Proof.
  assert (∀ k, name ≠ cand (S k)) as Hname.
  { intros k Hk. unfold candidate in Hk. simpl in Hk.
    rewrite <- (splitext_app name) in Hk at 1.
    apply (inj (String.app base)) in Hk.
    apply (f_equal String.length) in Hk.
    rewrite string_app_cons in Hk. simpl in Hk.
    rewrite !string_length_app in Hk. lia. }
  destruct i as [|i], j as [|j]; [done|intros H; by apply Hname in H
                                 |intros H; symmetry in H; by apply Hname in H|].
  unfold candidate. simpl. intros H.
  apply (inj (String.app base)), (inj (String.app "_")) in H.
  apply string_app_inj_r in H. by apply (inj pretty) in H.
Qed.

Lemma cand_startswith i :
  Py.startswith "/" (cand i) = Py.startswith "/" name.
Proof.
  destruct i as [|i]; [done|]. unfold candidate. simpl.
  pose proof (splitext_app name) as Happ.
  pose proof (splitext_base_empty name) as Hempty.
  destruct (Py.splitext name) as [b e]. simpl in *.
  rewrite <- Happ. destruct b as [|c b]; [|done].
  by rewrite Hempty.
Qed.

Lemma join_cand_inj i j :
  Py.join directory (cand i) = Py.join directory (cand j) → i = j.
Proof.
  intros H. apply cand_inj.
  destruct (Py.startswith "/" name) eqn:Hname.
  - unfold Py.join in H. by rewrite !cand_startswith, Hname in H.
  - eapply join_relative_inj; [..|exact H]; by rewrite cand_startswith.
Qed.

Lemma loop_unfold fuel i :
  unique_dest_loop (S fuel) fs directory base ext (cand i) (S i)
  = if Os.path_exists fs (Py.join directory (cand i))
    then unique_dest_loop fuel fs directory base ext (cand (S i)) (S (S i))
    else Some (cand i).
Proof. reflexivity. Qed.

(** The loop gives up only when every candidate it had fuel for exists. *)
Lemma loop_None fuel :
  ∀ i, unique_dest_loop fuel fs directory base ext (cand i) (S i) = None →
       ∀ j, (i ≤ j < i + fuel)%nat →
            Os.path_exists fs (Py.join directory (cand j)) = true.
Proof.
  induction fuel as [|fuel IH]; intros i Hloop j Hj; [lia|].
  rewrite loop_unfold in Hloop.
  destruct (Os.path_exists fs (Py.join directory (cand i))) eqn:Hi; [|done].
  destruct (decide (j = i)) as [->|Hne]; [done|].
  apply (IH (S i) Hloop). lia.
Qed.

(** The loop returns the first candidate that does not exist. *)
Lemma loop_Some fuel :
  ∀ i c, unique_dest_loop fuel fs directory base ext (cand i) (S i) = Some c →
         ∃ j, c = cand j ∧ (i ≤ j < i + fuel)%nat
              ∧ Os.path_exists fs (Py.join directory (cand j)) = false
              ∧ ∀ k, (i ≤ k < j)%nat →
                     Os.path_exists fs (Py.join directory (cand k)) = true.
Proof.
  induction fuel as [|fuel IH]; intros i c Hloop; [done|].
  rewrite loop_unfold in Hloop.
  destruct (Os.path_exists fs (Py.join directory (cand i))) eqn:Hi.
  - destruct (IH (S i) c Hloop) as (j & -> & Hj & Hfree & Hbusy).
    exists j. split; [done|]. split; [lia|]. split; [done|].
    intros k Hk. destruct (decide (k = i)) as [->|Hne]; [done|].
    apply Hbusy. lia.
  - injection Hloop as <-. exists i.
    split; [done|]. split; [lia|]. split; [done|]. lia.
Qed.

Lemma loop_found fuel :
  ∀ i j, (i ≤ j < i + fuel)%nat →
         (∀ k, (i ≤ k < j)%nat →
               Os.path_exists fs (Py.join directory (cand k)) = true) →
         Os.path_exists fs (Py.join directory (cand j)) = false →
         unique_dest_loop fuel fs directory base ext (cand i) (S i)
         = Some (cand j).
Proof.
  induction fuel as [|fuel IH]; intros i j Hj Hbusy Hfree; [lia|].
  rewrite loop_unfold.
  destruct (decide (j = i)) as [->|Hne]; [by rewrite Hfree|].
  rewrite Hbusy by lia. apply IH; [lia| |done].
  intros k Hk. apply Hbusy. lia.
Qed.

(** There are not more existing candidates than paths on the disk. *)
Lemma busy_candidates_bounded n :
  (∀ j, (j < n)%nat → Os.path_exists fs (Py.join directory (cand j)) = true) →
  (n ≤ size fs)%nat.
Proof.
  intros Hbusy.
  set (l := (λ j, Py.join directory (cand j)) <$> seq 0 n).
  assert (NoDup l) as Hnd.
  { apply NoDup_fmap_2_strong; [|apply NoDup_seq].
    intros i j _ _. apply join_cand_inj. }
  assert (list_to_set l ⊆ dom fs) as Hsub.
  { intros p (j & -> & Hj)%elem_of_list_to_set%list_elem_of_fmap.
    apply elem_of_seq in Hj. apply elem_of_dom.
    specialize (Hbusy j ltac:(lia)). unfold Os.path_exists in Hbusy.
    by apply bool_decide_eq_true in Hbusy. }
  apply subseteq_size in Hsub.
  rewrite size_list_to_set, size_dom in Hsub by done.
  unfold l in Hsub. by rewrite length_fmap, length_seq in Hsub.
Qed.

End candidates.

Lemma unique_dest_unfold fs directory name :
  unique_dest fs directory name
  = unique_dest_loop (S (size fs)) fs directory
      (Py.splitext name).1 (Py.splitext name).2
      (candidate name 0) 1.
Proof. unfold unique_dest. by destruct (Py.splitext name). Qed.

Lemma path_exists_mono (fs fs' : filesystem) p :
  fs ⊆ fs' → Os.path_exists fs p = true → Os.path_exists fs' p = true.
Proof.
  unfold Os.path_exists. intros Hsub [v Hv]%bool_decide_eq_true.
  apply bool_decide_eq_true. exists v. by eapply lookup_weaken.
Qed.

(** The loop of [unique_dest] ends: the fuel of the model is never used
    up. *)
Lemma unique_dest_returns fs directory name :
  is_Some (unique_dest fs directory name).
Proof.
  rewrite unique_dest_unfold.
  destruct (unique_dest_loop _ _ _ _ _ _ _) as [c|] eqn:Hloop; [by exists c|].
  pose proof (loop_None fs directory name _ 0%nat Hloop) as Hbusy.
  assert (S (size fs) ≤ size fs)%nat; [|lia].
  apply (busy_candidates_bounded fs directory name).
  intros j Hj. apply Hbusy. lia.
Qed.

(** C6. [unique_dest] returns, and the name it returns is not taken in the
    target directory. It returns the same name again as long as no file has
    appeared at the path of that name, also when other files have been
    created in the meantime. *)
Theorem unique_dest_free fs directory name :
  ∃ candidate,
    unique_dest fs directory name = Some candidate
    ∧ Os.path_exists fs (Py.join directory candidate) = false
    ∧ ∀ fs', fs ⊆ fs' →
             Os.path_exists fs' (Py.join directory candidate) = false →
             unique_dest fs' directory name = Some candidate.
Proof.
  destruct (unique_dest_returns fs directory name) as [c Hc].
  exists c. split; [done|].
  rewrite unique_dest_unfold in Hc.
  apply loop_Some in Hc as (j & -> & Hj & Hfree & Hbusy).
  split; [done|].
  intros fs' Hsub Hfree'. rewrite unique_dest_unfold.
  apply loop_found; [|intros k Hk; by eapply path_exists_mono, Hbusy|done].
  apply map_subseteq_size in Hsub. lia.
Qed.

(** ** Undo of an entry whose file is gone *)

Lemma ensure_dir_other l :
  ∀ acc p, p ∉ l → (foldl Os.ensure_dir acc l).1 !! p = acc.1 !! p.
Proof.
  induction l as [|d l IH]; intros [fs ok] p Hp; simpl; [done|].
  apply not_elem_of_cons in Hp as [Hne Hp].
  rewrite IH by done.
  destruct ok; simpl; [|done].
  destruct (fs !! d) as [[]|]; simpl; try done.
  by rewrite lookup_insert_ne.
Qed.

(** [makedirs] touches no path outside the chain of directories it makes. *)
Lemma makedirs_other fs name p :
  p ∉ Os.made_dirs name → (Os.makedirs fs name).1 !! p = fs !! p.
Proof.
  intros Hp. unfold Os.makedirs. case_bool_decide; [done|].
  by rewrite ensure_dir_other.
Qed.

Lemma ensure_dir_failed l fs : foldl Os.ensure_dir (fs, false) l = (fs, false).
Proof. induction l as [|d l IH]; simpl; [done|apply IH]. Qed.

Lemma ensure_dir_keeps l :
  ∀ acc e, acc.1 !! e = Some Dir → (foldl Os.ensure_dir acc l).1 !! e = Some Dir.
Proof.
  induction l as [|d l IH]; intros [fs ok] e He; simpl in *; [done|].
  apply IH. destruct ok; simpl; [|done].
  destruct (fs !! d) as [[]|] eqn:Hd; simpl; try done.
  destruct (decide (d = e)) as [->|Hne]; [congruence|].
  by rewrite lookup_insert_ne.
Qed.

Lemma ensure_dir_made l :
  ∀ fs fs1, foldl Os.ensure_dir (fs, true) l = (fs1, true) →
            ∀ e, e ∈ l → fs1 !! e = Some Dir.
Proof.
  induction l as [|d l IH]; intros fs fs1 Hfold e He;
    [by apply elem_of_nil in He|].
  simpl in Hfold. destruct (fs !! d) as [[]|] eqn:Hd.
  - by rewrite ensure_dir_failed in Hfold.
  - apply elem_of_cons in He as [->|He]; [|by eapply IH].
    pose proof (ensure_dir_keeps l (fs, true) d Hd) as Hkeep.
    by rewrite Hfold in Hkeep.
  - apply elem_of_cons in He as [->|He]; [|by eapply IH].
    pose proof (ensure_dir_keeps l (<[d:=Dir]> fs, true) d
                  (lookup_insert_eq _ _ _)) as Hkeep.
    by rewrite Hfold in Hkeep.
Qed.

(** When [makedirs] returns, every path of its chain is a directory. *)
Lemma makedirs_made fs name fs1 :
  Os.makedirs fs name = (fs1, true) →
  name ≠ "" ∧ ∀ e, e ∈ Os.made_dirs name → fs1 !! e = Some Dir.
Proof.
  unfold Os.makedirs. case_bool_decide; [done|].
  intros Hfold. split; [done|]. by eapply ensure_dir_made.
Qed.

Lemma startswith_app p r : Py.startswith p (p +:+ r) = true.
Proof.
  induction p as [|c p IH]; [done|].
  rewrite string_app_cons. simpl. by rewrite bool_decide_eq_true_2, IH.
Qed.

Lemma endswith_app a suffix : Py.endswith (a +:+ suffix) suffix = true.
Proof.
  induction a as [|c a IH].
  - change ("" +:+ suffix) with suffix.
    destruct suffix; simpl; rewrite ?bool_decide_eq_true_2 by done; done.
  - rewrite string_app_cons. simpl. rewrite IH. apply orb_true_r.
Qed.

Lemma endswith_cons c s :
  s ≠ "" → Py.endswith (String c s) "/" = Py.endswith s "/".
Proof.
  intros Hs. simpl. rewrite bool_decide_eq_false_2; [done|].
  intros [= _ ->]. done.
Qed.

Lemma parents_cons c s :
  Os.parents (String c s)
  = if negb (bool_decide (c = Py.sep)) && Py.startswith "/" s
    then String c "" :: (String c <$> Os.parents s)
    else String c <$> Os.parents s.
Proof. reflexivity. Qed.

(** An ancestor of a path is followed by a separator in it. *)
Lemma parents_spec s :
  ∀ e, e ∈ Os.parents s →
       e ≠ "" ∧ Py.endswith e "/" = false ∧ ∃ r, s = e +:+ String "/" r.
Proof.
  induction s as [|c s IH]; intros e He;
    [by apply elem_of_nil in He|].
  rewrite parents_cons in He.
  assert (e ∈ String c <$> Os.parents s →
          e ≠ "" ∧ Py.endswith e "/" = false ∧ ∃ r, String c s = e +:+ String "/" r)
    as Hrest.
  { intros (e' & -> & (Hne & Hend & r & Hs)%IH)%list_elem_of_fmap.
    split; [done|]. split; [by rewrite endswith_cons|].
    exists r. by rewrite string_app_cons, <- Hs. }
  destruct (negb (bool_decide (c = Py.sep)) && Py.startswith "/" s) eqn:Hc;
    [|by apply Hrest].
  apply elem_of_cons in He as [->|He]; [|by apply Hrest].
  apply andb_true_iff in Hc as [Hc Hs].
  apply negb_true_iff, bool_decide_eq_false in Hc.
  split; [done|]. split.
  - simpl. rewrite bool_decide_eq_false_2; [done|]. by intros [= ->].
  - destruct s as [|c' s]; [done|]. simpl in Hs.
    apply andb_true_iff in Hs as [Hc' _]. apply bool_decide_eq_true in Hc'.
    subst c'. by exists s.
Qed.

Lemma all_chars_parents s : Py.all_chars Py.sep s = true → Os.parents s = [].
Proof.
  induction s as [|c s IH]; [done|]. rewrite parents_cons. simpl.
  intros [Hc Hs]%andb_true_iff. rewrite Hc. simpl. by rewrite IH.
Qed.

Lemma all_chars_endswith s :
  s ≠ "" → Py.all_chars Py.sep s = true → Py.endswith s "/" = true.
Proof.
  induction s as [|c s IH]; [done|]. intros _. simpl.
  intros [Hc Hs]%andb_true_iff. apply bool_decide_eq_true in Hc. subst c.
  destruct s as [|c' s]; [done|].
  rewrite IH by done. apply orb_true_r.
Qed.

Lemma rstrip_sep_cons c s :
  Py.rstrip_sep (String c s)
  = if bool_decide (c = Py.sep) && bool_decide (Py.rstrip_sep s = "")
    then "" else String c (Py.rstrip_sep s).
Proof. reflexivity. Qed.

Lemma endswith_single c :
  c ≠ Py.sep → Py.endswith (String c "") "/" = false.
Proof.
  intros Hc. simpl. rewrite bool_decide_eq_false_2; [done|]. by intros [= ->].
Qed.

(** [rstrip_sep] cuts a run of separators off the end. *)
Lemma rstrip_sep_spec s :
  (∃ z, s = Py.rstrip_sep s +:+ z ∧ Py.all_chars Py.sep z = true)
  ∧ (Py.rstrip_sep s = "" → Py.all_chars Py.sep s = true)
  ∧ (Py.rstrip_sep s ≠ "" → Py.endswith (Py.rstrip_sep s) "/" = false).
Proof.
  induction s as [|c s ((z & Hz & Hall) & Hnil & Hend)].
  { split; [by exists ""|]. split; done. }
  rewrite rstrip_sep_cons.
  destruct (decide (c = Py.sep)) as [->|Hc];
    [rewrite (bool_decide_eq_true_2 (Py.sep = Py.sep)) by done
    |rewrite (bool_decide_eq_false_2 (c = Py.sep)) by done];
    cbn [andb].
  - case_bool_decide as Hr.
    + assert (Py.all_chars Py.sep (String Py.sep s) = true) as Hs.
      { simpl. by apply Hnil. }
      split; [by exists (String Py.sep s)|]. split; done.
    + split; [|split; [done|]].
      * exists z. split; [|done]. rewrite string_app_cons. by f_equal.
      * intros _. rewrite endswith_cons by done. by apply Hend.
  - split; [|split; [done|]].
    + exists z. split; [|done]. rewrite string_app_cons. by f_equal.
    + intros _. destruct (decide (Py.rstrip_sep s = "")) as [->|Hr].
      * by apply endswith_single.
      * rewrite endswith_cons by done. by apply Hend.
Qed.

Lemma rstrip_sep_fixed s : Py.endswith s "/" = false → Py.rstrip_sep s = s.
Proof.
  induction s as [|c s IH]; [done|].
  intros Hend. rewrite rstrip_sep_cons.
  destruct s as [|c' s].
  - destruct (decide (c = Py.sep)) as [->|Hc]; [done|].
    by rewrite (bool_decide_eq_false_2 (c = Py.sep)).
  - rewrite endswith_cons in Hend by done.
    rewrite IH by done. by rewrite andb_false_r.
Qed.

Lemma destinsrc_prefix e src r :
  (Py.endswith e "/" = true ∧ src = e +:+ r)
  ∨ (Py.endswith e "/" = false ∧ src = e +:+ String "/" r) →
  Os.destinsrc e src = true.
Proof.
  unfold Os.destinsrc. intros [[-> ->]|[-> ->]].
  - destruct (Py.endswith (e +:+ r) "/"); [apply startswith_app|].
    rewrite string_app_assoc. apply startswith_app.
  - change (e +:+ String "/" r) with (e +:+ "/" +:+ r).
    rewrite <- !string_app_assoc.
    destruct (Py.endswith _ "/"); [apply startswith_app|].
    rewrite string_app_assoc. apply startswith_app.
Qed.

(** Every directory [makedirs] makes for the directory of [src] contains
    [src]. *)
Lemma made_dirs_destinsrc src e :
  Py.dirname src ≠ "" →
  e ∈ Os.made_dirs (Py.dirname src) →
  Os.destinsrc e src = true.
Proof.
  unfold Py.dirname, Py.split.
  destruct (Py.rsplit Py.sep src) as [[h t]|] eqn:Hsplit; [|done].
  apply rsplit_Some in Hsplit. simpl. intros _.
  assert (src = (h +:+ "/") +:+ t) as Hsrc.
  { by rewrite string_app_assoc. }
  destruct (Py.all_chars Py.sep (h +:+ "/")) eqn:Hall.
  - unfold Os.made_dirs. rewrite Hall, all_chars_parents by done.
    intros ->%list_elem_of_singleton.
    apply (destinsrc_prefix _ _ t). left. split; [apply endswith_app|done].
  - destruct (rstrip_sep_spec (h +:+ "/")) as ((z & Hz & Hzall) & Hnil & Hend).
    set (D := Py.rstrip_sep (h +:+ "/")) in *.
    assert (D ≠ "") as HD.
    { intros HD. apply Hnil in HD. congruence. }
    specialize (Hend HD).
    assert (∃ z', z = String "/" z') as [z' ->].
    { destruct z as [|c z].
      - rewrite string_app_nil_r in Hz.
        pose proof (endswith_app h "/") as Hslash. rewrite Hz in Hslash. congruence.
      - simpl in Hzall. apply andb_true_iff in Hzall as [Hc _].
        apply bool_decide_eq_true in Hc. subst c. by exists z. }
    assert (Os.made_dirs D = Os.parents D ++ [D]) as ->.
    { unfold Os.made_dirs. rewrite (rstrip_sep_fixed D Hend).
      destruct (Py.all_chars Py.sep D) eqn:HDall; [|done].
      apply all_chars_endswith in HDall; [congruence|done]. }
    intros [He| ->%list_elem_of_singleton]%elem_of_app.
    + apply parents_spec in He as (_ & Heend & r & HDe).
      apply (destinsrc_prefix _ _ (r +:+ String "/" z' +:+ t)). right.
      split; [done|]. rewrite Hsrc, Hz, HDe.
      change (e +:+ String "/" r) with (e +:+ "/" +:+ r).
      by rewrite !string_app_assoc.
    + apply (destinsrc_prefix _ _ (z' +:+ t)). right. split; [done|].
      rewrite Hsrc, Hz.
      change (D +:+ String "/" z') with (D +:+ "/" +:+ z').
      by rewrite !string_app_assoc.
Qed.

(** A directory is not moved to a path inside itself. *)
Lemma move_into_itself fs dest src :
  fs !! dest = Some Dir → fs !! src = None →
  Os.destinsrc dest src = true →
  Os.move fs dest src = None.
Proof.
  intros Hdest Hsrc Hin. unfold Os.move, Os.isdir.
  rewrite Hsrc, bool_decide_eq_false_2 by done. simpl.
  by rewrite Hdest, Hin.
Qed.

(** [restore] on an entry whose destination is not on the disk changes the
    disk at most: the organizer and the state file stay as they are. *)
Lemma restore_missing b op w w' r :
  Os.path_exists (disk w) (op_dest op) = false →
  restore b op w = (w', r) →
  app w' = app w ∧ state_file w' = state_file w ∧ r ≠ Done
  ∧ (op_dest op ∉ Os.made_dirs (Py.dirname (op_src op)) →
     r = if (Os.makedirs (disk w) (Py.dirname (op_src op))).2
         then Warning "File Missing" else Critical "Error").
Proof.
  intros Hgone. unfold restore.
  destruct (Os.makedirs (disk w) (Py.dirname (op_src op))) as [fs1 ok] eqn:Hmk.
  destruct ok; simpl; [|by intros [= <- <-]].
  destruct (Os.path_exists fs1 (op_dest op)) eqn:Hdest; simpl;
    [|by intros [= <- <-]].
  destruct (decide (op_dest op ∈ Os.made_dirs (Py.dirname (op_src op))))
    as [Hin|Hout].
  2:{ pose proof (makedirs_other (disk w) _ _ Hout) as Hsame.
      rewrite Hmk in Hsame. simpl in Hsame.
      unfold Os.path_exists in Hgone, Hdest. rewrite Hsame in Hdest. congruence. }
  destruct (makedirs_made _ _ _ Hmk) as [Hname Hmade].
  pose proof (Hmade _ Hin) as Hdir.
  pose proof (made_dirs_destinsrc _ _ Hname Hin) as Hinside.
  destruct (Os.path_exists fs1 (op_src op)) eqn:Hsrc.
  - destruct b; [|by intros [= <- <-]].
    unfold Os.remove.
    destruct (fs1 !! op_src op) as [[]|] eqn:Hfile; try (by intros [= <- <-]).
    rewrite move_into_itself; [by intros [= <- <-]| |by rewrite lookup_delete_eq|done].
    rewrite lookup_delete_ne; [done|]. intros Heq. congruence.
  - rewrite move_into_itself; [by intros [= <- <-]|done| |done].
    unfold Os.path_exists in Hsrc. apply bool_decide_eq_false in Hsrc.
    by apply eq_None_not_Some.
Qed.

(** C5. [undo] on a ledger whose newest entry has lost its destination
    file: the entry is removed from [undo_stack] and not pushed back,
    [cv_list] and [current_index] are unchanged, and the next [undo] works
    on the entry below. The problem is reported: the user sees the File
    Missing warning (the failure message of the [except] clause when the
    directory of the source cannot be made), provided the missing
    destination is not itself a directory on the way to the source, which
    [undo] would make before it looks for the file. *)
Theorem undo_missing_destination b w rest op w' r :
  undo_stack (app w) = rest ++ [op] →
  Os.path_exists (disk w) (op_dest op) = false →
  undo b w = (w', r) →
  undo_stack (app w') = rest
  ∧ cv_list (app w') = cv_list (app w)
  ∧ current_index (app w') = current_index (app w)
  ∧ r ≠ Done
  ∧ (op_dest op ∉ Os.made_dirs (Py.dirname (op_src op)) →
     r = if (Os.makedirs (disk w) (Py.dirname (op_src op))).2
         then Warning "File Missing" else Critical "Error")
  ∧ ∀ b' rest' older,
      rest = rest' ++ [older] →
      undo b' w'
      = restore b' older {| app := with_undo_stack rest' (app w');
                            disk := disk w'; state_file := state_file w' |}.
Proof.
  intros Hstack Hgone Hundo.
  unfold undo in Hundo. rewrite Hstack, list_pop_last_snoc in Hundo.
  apply restore_missing in Hundo as (Happ & Hfile & Hr & Hreport); [|done].
  simpl in Happ, Hreport. rewrite Happ. simpl.
  split_and!; try done.
  intros b' rest' older ->. unfold undo. rewrite Happ. simpl.
  by rewrite list_pop_last_snoc.
Qed.

Lemma undo_missing_destination_witness :
  undo_stack (app held_file_gone) = [reject_a] ++ [hold_b]
  ∧ Os.path_exists (disk held_file_gone) (op_dest hold_b) = false
  ∧ undo_stack (app (undo false held_file_gone).1) = [reject_a]
  ∧ cv_list (app (undo false held_file_gone).1) = cv_list (app held_file_gone)
  ∧ (undo false held_file_gone).2 ≠ Done.
Proof.
  assert (undo_stack (app held_file_gone) = [reject_a] ++ [hold_b]) as H1
    by (vm_compute; reflexivity).
  assert (Os.path_exists (disk held_file_gone) (op_dest hold_b) = false) as H2
    by (vm_compute; reflexivity).
  do 2 (split; [assumption|]).
  destruct (undo_missing_destination false held_file_gone [reject_a] hold_b
              _ _ H1 H2 (surjective_pairing _))
    as (Hstack & Hcv & _ & Hr & _).
  split; [exact Hstack|]. split; [exact Hcv|exact Hr].
Defined.

Example undo_missing_destination_report :
  (undo false held_file_gone).2 = Warning "File Missing".
Proof. by vm_compute. Qed.

(** ** Export *)

Lemma filter_none {A} (P : A → Prop) `{∀ x, Decision (P x)} (l : list A) :
  (∀ x, x ∈ l → ¬ P x) → filter P l = [].
Proof.
  induction l as [|x l IH]; intros Hl; [done|].
  rewrite filter_cons_False by (apply Hl; by left).
  apply IH. intros y Hy. apply Hl. by right.
Qed.

Lemma bind_none {A B} (f : A → list B) (l : list A) :
  (∀ x, x ∈ l → f x = []) → l ≫= f = [].
Proof.
  induction l as [|x l IH]; intros Hl; [done|].
  simpl. rewrite (Hl x) by (by left). simpl. apply IH.
  intros y Hy. apply Hl. by right.
Qed.

(** The exported rows are read from the disk: with no PDF in the reason
    folders under [Rejected] there is nothing to export. *)
Lemma export_rows_none w :
  (∀ key folder fname,
      (key, folder) ∈ reason_map (config (app w)) →
      let path := Py.join (Py.join (base_folder (app w)) "Rejected") folder in
      Os.isdir (disk w) path = true →
      fname ∈ Os.listdir (disk w) path →
      Py.endswith (Py.lower fname) ".pdf" = false) →
  export_rows w = [].
Proof.
  intros Hnone. unfold export_rows. apply bind_none.
  intros [key folder] Hin. unfold folder_rows.
  destruct (Os.isdir _ _) eqn:Hdir; [|done].
  rewrite filter_none; [done|].
  intros fname Hf Hpdf. specialize (Hnone key folder fname Hin Hdir Hf).
  simpl in Hnone. rewrite Hnone in Hpdf. done.
Qed.

(** C8, as the code has it. [open_folder] followed at once by [export_csv]
    exports no row when no reason folder under [Rejected] of the chosen
    folder holds a file with a [.pdf] name, in particular when the folder
    has no [Rejected] directory. *)
Theorem export_after_open_folder d out w :
  d ≠ "" →
  (∀ key folder fname,
      (key, folder) ∈ reason_map (config (app w)) →
      let path := Py.join (Py.join d "Rejected") folder in
      Os.isdir (disk w) path = true →
      fname ∈ Os.listdir (disk w) path →
      Py.endswith (Py.lower fname) ".pdf" = false) →
  (export_csv out (open_folder d w).1).2 = []
  ∧ export_rows (open_folder d w).1 = [].
Proof.
  intros Hd Hnone.
  assert (app (open_folder d w).1
          = {| cv_list := Os.sorted (Os.glob (disk w) (Py.join d "*.pdf"));
               current_index :=
                 match Os.sorted (Os.glob (disk w) (Py.join d "*.pdf")) with
                 | [] => -1 | _ => 0 end;
               undo_stack := [];
               base_folder := d;
               cand_email_map := cand_email_map (app w);
               config := config (app w) |}
          ∧ disk (open_folder d w).1 = disk w) as [Happ Hdisk].
  { unfold open_folder. rewrite bool_decide_eq_false_2 by done. simpl.
    rewrite app_save_session_state. split; [done|].
    unfold save_session_state. by case_bool_decide. }
  assert (export_rows (open_folder d w).1 = []) as Hrows.
  { apply export_rows_none. rewrite Happ, Hdisk. exact Hnone. }
  split; [|done].
  unfold export_csv. rewrite Hrows.
  case_bool_decide; [done|]. by destruct (negb _).
Qed.

Lemma export_after_open_folder_witness :
  "/cv" ≠ ""
  ∧ (export_csv "/cv/rejection_list.csv"
       (open_folder "/cv" (fresh DEFAULT_CONFIG two_cvs)).1).2 = [].
Proof.
  assert ("/cv" ≠ "") as H1 by discriminate.
  split; [exact H1|].
  refine (proj1 (export_after_open_folder "/cv" "/cv/rejection_list.csv"
                   (fresh DEFAULT_CONFIG two_cvs) H1 _)).
  intros key folder fname Hin path Hdir. exfalso.
  simpl in Hin.
  repeat (apply elem_of_cons in Hin as [Hin|Hin];
          [injection Hin as -> ->; vm_compute in Hdir; discriminate|]).
  by apply elem_of_nil in Hin.
Defined.

(** C8, as stated, fails: the rows come from the disk, and a PDF that an
    earlier session left under [Rejected] is exported right after
    [open_folder], before any move. *)
Lemma export_after_open_folder_leftover :
  (export_csv "/cv/rejection_list.csv"
     (open_folder "/cv" (fresh DEFAULT_CONFIG leftover_disk)).1).2
  = [{| Filename := "old.pdf"; ReasonKey := "3"; ReasonText := "Other";
        Email := "" |}]
  ∧ ¬ (export_csv "/cv/rejection_list.csv"
         (open_folder "/cv" (fresh DEFAULT_CONFIG leftover_disk)).1).2 = [].
Proof. split; [by vm_compute|]. by vm_compute. Qed.

(** ** Import then export *)

(** C2, on the code: the import stores the address under the normalized key
    [jane doe]; [export_csv] looks the raw stem [Jane Doe] up and finds
    nothing, so the exported row has an empty Email. *)
Lemma export_misses_imported_email :
  cand_email_map (app jane_rejected) !! "jane doe" = Some "jane@x.com"
  ∧ email_map (config (app jane_rejected)) !! "jane doe" = Some "jane@x.com"
  ∧ export_rows jane_rejected
    = [{| Filename := "Jane Doe.pdf"; ReasonKey := "1";
          ReasonText := "UnsatisfactoryEducation"; Email := "" |}].
Proof. split_and!; by vm_compute. Qed.

(** ** Listing *)

(** C7, on the code: the pattern [*.pdf] is matched as it is written, so
    [open_folder] lists [b.pdf] and leaves [A.PDF] out, while the scan of
    [export_csv] accepts the same name. *)
Lemma open_folder_skips_upper_case :
  cv_list (app (open_folder "/cv" (fresh DEFAULT_CONFIG mixed_case_disk)).1)
  = ["/cv/b.pdf"]
  ∧ Py.endswith (Py.lower "A.PDF") ".pdf" = true.
Proof. split; by vm_compute. Qed.


(** * Further properties of the code *)

(** ** The keys of normalize_name *)

Section key_facts.

Local Abbreviation keep := (λ c : ascii, Py.isword c || Py.isspace c).

(** [normalize_name] from the collapse on, for a string that follows a
    blank ([b = true]) or not. *)
Local Abbreviation tidy :=
  (λ (b : bool) (s : string),
     Py.rstrip (Py.collapse_spaces b (Py.lower (Py.filter_chars keep s)))).


Lemma isword_not_isspace c : Py.isword c = true → Py.isspace c = false.
Proof. by destruct c as [[] [] [] [] [] [] [] []]. Qed.

















End key_facts.




(** ** Importing e-mail addresses *)

Lemma import_rows_app rows1 :
  ∀ rows2 acc,
    import_rows (rows1 ++ rows2) acc
    = match import_rows rows1 acc with
      | (i, true) => import_rows rows2 i
      | (i, false) => (i, false)
      end.
Proof.
  induction rows1 as [|[[name|] [email|]] rows1 IH]; intros rows2 acc; simpl;
    try done.
  destruct (_ && _); apply IH.
Qed.

(** Rows for other names leave the entry of a key alone, in both tiers. *)
Lemma import_rows_other rows :
  ∀ acc i ok k,
    import_rows rows acc = (i, ok) →
    (∀ name email, (Some name, Some email) ∈ rows → normalize_name name ≠ k) →
    session_tier i !! k = session_tier acc !! k
    ∧ persistent_tier i !! k = persistent_tier acc !! k.
Proof.
  induction rows as [|[[name|] [email|]] rows IH]; intros acc i ok k Himp Hother;
    simpl in Himp; try (by injection Himp as <- <-).
  assert (normalize_name name ≠ k) as Hk by (eapply Hother; by left).
  assert (∀ n e, (Some n, Some e) ∈ rows → normalize_name n ≠ k) as Hrest.
  { intros n e Hin. eapply Hother. by right. }
  destruct (_ && _).
  - destruct (IH _ _ _ _ Himp Hrest) as [-> ->]. simpl.
    by rewrite !lookup_insert_ne.
  - by apply (IH _ _ _ _ Himp Hrest).
Qed.

Lemma import_emails_tiers f w w' :
  import_emails (Some f) w = (w', Information "Import Complete") →
  ∃ i, import_rows (csv_rows f)
         {| session_tier := cand_email_map (app w);
            persistent_tier := email_map (config (app w));
            new_emails := 0 |} = (i, true)
       ∧ cand_email_map (app w') = session_tier i
       ∧ email_map (config (app w')) = persistent_tier i.
Proof.
  unfold import_emails. case_bool_decide; [done|].
  destruct (fieldnames f); [|done].
  destruct (_ || _); [done|].
  destruct (import_rows _ _) as [i []] eqn:Hrows; [|done].
  intros [= <-]. exists i. by rewrite app_save_session_state.
Qed.

(** X4. After a successful import, the address of a name is the one of the
    last row of the file for that name (rows are matched by their
    normalized name, the address is stripped of surrounding white space):
    it is stored under the normalized name in the session cache and in the
    configuration alike, and it is what [export_csv] prints for a file
    whose stem is that normalized name. *)
Theorem import_last_row_wins f w w' before name email after :
  import_emails (Some f) w = (w', Information "Import Complete") →
  csv_rows f = before ++ (Some name, Some email) :: after →
  normalize_name name ≠ "" →
  Py.strip email ≠ "" →
  (∀ n e, (Some n, Some e) ∈ after → normalize_name n ≠ normalize_name name) →
  cand_email_map (app w') !! normalize_name name = Some (Py.strip email)
  ∧ email_map (config (app w')) !! normalize_name name = Some (Py.strip email)
  ∧ lookup_email (app w') (normalize_name name) = Py.strip email.
Proof.
  intros (i & Hrows & Hs & Hp)%import_emails_tiers Hcsv Hname Hemail Hlast.
  rewrite Hcsv, import_rows_app in Hrows.
  destruct (import_rows before _) as [i1 []]; [|done].
  simpl in Hrows.
  rewrite !bool_decide_eq_false_2 in Hrows by done. simpl in Hrows.
  destruct (import_rows_other _ _ _ _ _ Hrows Hlast) as [Hsess Hpers].
  simpl in Hsess, Hpers. rewrite lookup_insert_eq in Hsess, Hpers.
  assert (cand_email_map (app w') !! normalize_name name = Some (Py.strip email))
    as Hcache by (by rewrite Hs).
  split; [done|]. split; [by rewrite Hp|].
  unfold lookup_email, Py.or_else. rewrite Hcache.
  by rewrite bool_decide_eq_false_2.
Qed.

Lemma import_last_row_wins_witness :
  import_emails (Some csv_two_rows) opened
  = ((import_emails (Some csv_two_rows) opened).1, Information "Import Complete")
  ∧ csv_rows csv_two_rows
    = [(Some "Jane Doe", Some "old@x.com")]
      ++ (Some "  JANE   doe!", Some " jane@x.com ") :: []
  ∧ normalize_name "  JANE   doe!" ≠ ""
  ∧ Py.strip " jane@x.com " ≠ ""
  ∧ lookup_email (app (import_emails (Some csv_two_rows) opened).1)
      (normalize_name "  JANE   doe!")
    = Py.strip " jane@x.com ".
Proof.
  assert (import_emails (Some csv_two_rows) opened
          = ((import_emails (Some csv_two_rows) opened).1,
             Information "Import Complete")) as H1
    by (vm_compute; reflexivity).
  assert (csv_rows csv_two_rows
          = [(Some "Jane Doe", Some "old@x.com")]
            ++ (Some "  JANE   doe!", Some " jane@x.com ") :: []) as H2
    by reflexivity.
  assert (normalize_name "  JANE   doe!" ≠ "") as H3
    by (vm_compute; discriminate).
  assert (Py.strip " jane@x.com " ≠ "") as H4 by (vm_compute; discriminate).
  split; [exact H1|]. split; [exact H2|]. split; [exact H3|].
  split; [exact H4|].
  refine (proj2 (proj2 (import_last_row_wins _ _ _ _ _ _ _ H1 H2 H3 H4 _))).
  intros n e Hin%elem_of_nil. destruct Hin.
Defined.



(** ** What filing and undoing do on the disk *)

Lemma only_dirs_made_refl fs : only_dirs_made fs fs.
Proof. intros p. by left. Qed.

Lemma only_dirs_made_trans fs1 fs2 fs3 :
  only_dirs_made fs1 fs2 → only_dirs_made fs2 fs3 → only_dirs_made fs1 fs3.
Proof.
  intros H12 H23 p. destruct (H12 p) as [H|[H1 H2]], (H23 p) as [H'|[H1' H2']].
  - left. congruence.
  - right. split; congruence.
  - right. split; congruence.
  - congruence.
Qed.

Lemma only_dirs_made_Some fs fs' p v :
  only_dirs_made fs fs' → fs !! p = Some v → fs' !! p = Some v.
Proof. intros H Hp. destruct (H p) as [->|[? _]]; congruence. Qed.

Lemma only_dirs_made_exists fs fs' p :
  only_dirs_made fs fs' → Os.path_exists fs p = true → Os.path_exists fs' p = true.
Proof.
  unfold Os.path_exists. intros H [v Hv]%bool_decide_eq_true.
  apply bool_decide_eq_true. exists v. by eapply only_dirs_made_Some.
Qed.

Lemma ensure_dir_only_dirs l :
  ∀ acc, only_dirs_made acc.1 (foldl Os.ensure_dir acc l).1.
Proof.
  induction l as [|d l IH]; intros [fs ok]; simpl; [apply only_dirs_made_refl|].
  eapply only_dirs_made_trans; [|apply IH].
  destruct ok; simpl; [|apply only_dirs_made_refl].
  destruct (fs !! d) as [[]|] eqn:Hd; simpl; try apply only_dirs_made_refl.
  intros p. destruct (decide (p = d)) as [->|Hne].
  - right. by rewrite lookup_insert_eq.
  - left. by rewrite lookup_insert_ne.
Qed.

(** [makedirs] leaves every existing entry alone and makes directories
    only. *)
Lemma makedirs_only_dirs fs name : only_dirs_made fs (Os.makedirs fs name).1.
Proof.
  unfold Os.makedirs. case_bool_decide; [apply only_dirs_made_refl|].
  apply (ensure_dir_only_dirs _ (fs, true)).
Qed.

Lemma disk_save_session_state w : disk (save_session_state w) = disk w.
Proof. unfold save_session_state. by case_bool_decide. Qed.

Lemma state_file_save_session_state w :
  state_file (save_session_state w)
  = if bool_decide (base_folder (app w) = "") then state_file w
    else Some (snapshot_of (app w)).
Proof. unfold save_session_state. by case_bool_decide. Qed.

Lemma unique_dest_Some_free fs directory name c :
  unique_dest fs directory name = Some c →
  Os.path_exists fs (Py.join directory c) = false.
Proof.
  rewrite unique_dest_unfold.
  by intros (j & -> & _ & Hfree & _)%loop_Some.
Qed.

(** A successful filing went through [relocate] with the directory of the
    action. *)
Lemma step_done_relocate a w w' :
  step a w = (w', Done) →
  ∃ src kind reason dir op fs,
    current_item (app w) = Some src
    ∧ destination_dir a (app w) = Some dir
    ∧ relocate kind reason dir src w = (fs, Some op)
    ∧ w' = record op fs w.
Proof.
  assert (∀ kind reason dir src,
    file_away kind reason dir src w = (w', Done) →
    ∃ op fs, relocate kind reason dir src w = (fs, Some op) ∧ w' = record op fs w)
    as Hfile.
  { intros kind reason dir src. unfold file_away.
    destruct (relocate kind reason dir src w) as [fs [op|]]; [|done].
    intros [= <-]. by exists op, fs. }
  destruct a as [k|]; simpl; unfold move_current, hold;
    destruct (current_item (app w)) as [src|]; try done.
  - destruct (assoc k _) as [folder|] eqn:Hk; [|done].
    destruct (negb _); [done|].
    intros (op & fs & ? & ?)%Hfile.
    exists src, Reject, (Some k),
      (Py.join (Py.join (base_folder (app w)) "Rejected") folder), op, fs.
    done.
  - destruct (negb _); [done|].
    intros (op & fs & ? & ?)%Hfile.
    by exists src, Hold, None,
      (Py.join (base_folder (app w)) (hold_folder (config (app w)))), op, fs.
Qed.

(** [relocate] of a regular file: the destination is a free path in the
    directory, and the file is all that moves. *)
Lemma relocate_file kind reason dir src w fs2 op :
  relocate kind reason dir src w = (fs2, Some op) →
  disk w !! src = Some File →
  op_src op = src
  ∧ (∃ u, op_dest op = Py.join dir u)
  ∧ (Os.makedirs (disk w) dir).1 !! op_dest op = None
  ∧ op_dest op ≠ src
  ∧ fs2 = <[op_dest op := File]> (delete src (Os.makedirs (disk w) dir).1).
Proof.
  unfold relocate. intros Hrel Hsrc.
  pose proof (makedirs_only_dirs (disk w) dir) as Hdirs.
  destruct (Os.makedirs (disk w) dir) as [fs1 ok]. simpl in Hdirs.
  destruct ok; simpl in Hrel; [|done].
  destruct (unique_dest fs1 dir (Py.basename src)) as [u|] eqn:Hu; [|done].
  apply unique_dest_Some_free in Hu.
  unfold Os.path_exists in Hu. apply bool_decide_eq_false in Hu.
  apply eq_None_not_Some in Hu.
  pose proof (only_dirs_made_Some _ _ _ _ Hdirs Hsrc) as Hsrc1.
  destruct (Os.move fs1 src (Py.join dir u)) as [fs|] eqn:Hmove; [|done].
  injection Hrel as <- <-. simpl.
  split; [done|]. split; [by exists u|]. split; [done|].
  split; [congruence|].
  unfold Os.move, Os.isdir in Hmove.
  rewrite Hu, bool_decide_eq_false_2 in Hmove by done. simpl in Hmove.
  rewrite Hsrc1 in Hmove.
  destruct (Os.parent_ready _ _ && _); [by injection Hmove as <-|done].
Qed.



(** X7. A successful [move_current] or [hold] of a regular file moves that
    file and nothing else: the file is gone from its path and is now at a
    path inside the directory of the action that was free before, so no
    existing file is overwritten; every other path keeps its entry, apart
    from directories made on the way. The new ledger entry (when the ledger
    has room for one) records exactly this source and destination. *)
Theorem step_moves_one_file a w w' src :
  step a w = (w', Done) →
  current_item (app w) = Some src →
  disk w !! src = Some File →
  ∃ op dir name,
    destination_dir a (app w) = Some dir
    ∧ op_src op = src
    ∧ op_dest op = Py.join dir name
    ∧ op_dest op ≠ src
    ∧ disk w !! op_dest op = None
    ∧ disk w' !! op_dest op = Some File
    ∧ disk w' !! src = None
    ∧ (∀ p, p ≠ src → p ≠ op_dest op →
            disk w' !! p = disk w !! p
            ∨ (disk w !! p = None ∧ disk w' !! p = Some Dir))
    ∧ (1 ≤ max_undo (config (app w)) → last (undo_stack (app w')) = Some op).
Proof.
  intros (src' & kind & reason & dir & op & fs & Hcur & Hdir & Hrel & ->)%step_done_relocate
    Hitem Hfile.
  rewrite Hcur in Hitem. injection Hitem as ->.
  destruct (relocate_file _ _ _ _ _ _ _ Hrel Hfile)
    as (Hsrc & [name Hdest] & Hfree & Hne & ->).
  pose proof (makedirs_only_dirs (disk w) dir) as Hdirs.
  exists op, dir, name. unfold record.
  rewrite disk_save_session_state, app_save_session_state. simpl.
  split_and!; try done.
  - destruct (Hdirs (op_dest op)) as [Heq|[? _]]; [by rewrite <- Heq|done].
  - by rewrite lookup_insert_eq.
  - rewrite lookup_insert_ne by done. by rewrite lookup_delete_eq.
  - intros p Hp1 Hp2.
    rewrite lookup_insert_ne, lookup_delete_ne by done. apply Hdirs.
  - intros H1. by apply last_push_bounded.
Qed.

Lemma step_moves_one_file_witness :
  step (MoveCurrent "1") opened = (rejected_a, Done)
  ∧ current_item (app opened) = Some "/cv/a.pdf"
  ∧ disk opened !! "/cv/a.pdf" = Some File
  ∧ disk rejected_a !! "/cv/a.pdf" = None.
Proof.
  assert (step (MoveCurrent "1") opened = (rejected_a, Done)) as H1
    by (vm_compute; reflexivity).
  assert (current_item (app opened) = Some "/cv/a.pdf") as H2
    by (vm_compute; reflexivity).
  assert (disk opened !! "/cv/a.pdf" = Some File) as H3
    by (vm_compute; reflexivity).
  do 3 (split; [assumption|]).
  destruct (step_moves_one_file _ _ _ _ H1 H2 H3)
    as (op & dir & name & _ & _ & _ & _ & _ & _ & Hgone & _).
  exact Hgone.
Defined.

(** The disk side of a successful [undo]. *)
Lemma undo_done_disk b w w' :
  undo b w = (w', Done) →
  ∃ rest op fs1 fs2,
    undo_stack (app w) = rest ++ [op]
    ∧ Os.makedirs (disk w) (Py.dirname (op_src op)) = (fs1, true)
    ∧ Os.path_exists fs1 (op_dest op) = true
    ∧ ((fs1 !! op_src op = None ∧ fs2 = fs1)
       ∨ (fs1 !! op_src op = Some File ∧ fs2 = delete (op_src op) fs1))
    ∧ Os.move fs2 (op_dest op) (op_src op) = Some (disk w').
Proof.
  unfold undo.
  destruct (list_pop_last _) as [[rest op]|] eqn:Hpop; [|done].
  apply list_pop_last_Some in Hpop.
  unfold restore; simpl.
  destruct (Os.makedirs (disk w) (Py.dirname (op_src op))) as [fs1 ok] eqn:Hmk.
  destruct ok; simpl; [|done].
  destruct (Os.path_exists fs1 (op_dest op)) eqn:Hdest; simpl; [|done].
  intros H. exists rest, op, fs1.
  destruct (Os.path_exists fs1 (op_src op)) eqn:Hsrc.
  - destruct b; [|done]. unfold Os.remove in H.
    destruct (fs1 !! op_src op) as [[]|] eqn:Hfile; try done.
    exists (delete (op_src op) fs1).
    destruct (Os.move _ _ _) as [fs3|] eqn:Hmove; [|done].
    injection H as <-. rewrite disk_save_session_state. simpl.
    split_and!; try done. by right.
  - exists fs1.
    destruct (Os.move _ _ _) as [fs3|] eqn:Hmove; [|done].
    injection H as <-. rewrite disk_save_session_state. simpl.
    split_and!; try done. left. split; [|done].
    unfold Os.path_exists in Hsrc. apply bool_decide_eq_false in Hsrc.
    by apply eq_None_not_Some.
Qed.

Lemma move_file fs src dst fs' :
  fs !! src = Some File → fs !! dst = None →
  Os.move fs src dst = Some fs' →
  fs' = <[dst := File]> (delete src fs).
Proof.
  intros Hsrc Hdst. unfold Os.move, Os.isdir.
  rewrite Hdst, bool_decide_eq_false_2 by done. simpl. rewrite Hsrc.
  destruct (Os.parent_ready _ _ && _); [by intros [= <-]|done].
Qed.

(** X8. Filing a regular file and undoing it at once puts everything back:
    the organizer (queue, cursor, ledger) is as before, and so is every file
    on disk; the only trace left is the directories that were made. (The
    ledger must have had room for the entry, or it would have been dropped
    already.) *)
Theorem filing_then_undo_restores_disk a b w w1 w2 src :
  step a w = (w1, Done) →
  current_item (app w) = Some src →
  disk w !! src = Some File →
  len (undo_stack (app w)) < max_undo (config (app w)) →
  undo b w1 = (w2, Done) →
  app w2 = app w ∧ only_dirs_made (disk w) (disk w2).
Proof.
  intros Hstep Hitem Hfile Hroom Hundo.
  split; [by eapply undo_step|].
  apply step_done_relocate in Hstep
    as (src' & kind & reason & dir & op & fs & Hcur & _ & Hrel & ->).
  rewrite Hcur in Hitem. injection Hitem as ->.
  destruct (relocate_file _ _ _ _ _ _ _ Hrel Hfile)
    as (Hsrc & _ & Hfree & Hne & ->).
  pose proof (makedirs_only_dirs (disk w) dir) as Hdirs.
  set (fs0 := (Os.makedirs (disk w) dir).1) in *.
  apply undo_done_disk in Hundo
    as (rest & op' & fs1 & fs2 & Hstack & Hmk & _ & Hclear & Hmove).
  unfold record in Hstack, Hmk. rewrite app_save_session_state in Hstack.
  rewrite disk_save_session_state in Hmk. simpl in Hstack, Hmk.
  rewrite push_bounded_room in Hstack by done.
  apply app_inj_tail in Hstack as [_ <-].
  pose proof (makedirs_only_dirs
                (<[op_dest op:=File]> (delete src fs0)) (Py.dirname (op_src op)))
    as Hdirs1.
  rewrite Hmk in Hdirs1. simpl in Hdirs1. rewrite Hsrc in *.
  assert (fs1 !! op_dest op = Some File) as Hdest1.
  { eapply only_dirs_made_Some; [exact Hdirs1|]. by rewrite lookup_insert_eq. }
  assert (fs2 !! src = None ∧ ∀ p, p ≠ src → fs2 !! p = fs1 !! p) as [Hsrc2 Hrest2].
  { destruct Hclear as [[Hnone ->]|[_ ->]]; [done|].
    split; [by rewrite lookup_delete_eq|].
    intros p Hp. by rewrite lookup_delete_ne. }
  apply move_file in Hmove; [|by rewrite Hrest2|done].
  rewrite Hmove. intros p.
  destruct (decide (p = src)) as [->|Hp1].
  { left. by rewrite lookup_insert_eq. }
  rewrite lookup_insert_ne by done.
  destruct (decide (p = op_dest op)) as [->|Hp2].
  { left. rewrite lookup_delete_eq.
    destruct (Hdirs (op_dest op)) as [Heq|[Hnone _]]; [|done].
    by rewrite <- Heq. }
  rewrite lookup_delete_ne, Hrest2 by done.
  destruct (Hdirs1 p) as [Heq|[Hnone Hdir]].
  - rewrite Heq, lookup_insert_ne, lookup_delete_ne by done. apply Hdirs.
  - rewrite lookup_insert_ne, lookup_delete_ne in Hnone by done.
    right. split; [|done].
    destruct (Hdirs p) as [Heq|[? _]]; [by rewrite <- Heq|done].
Qed.

Lemma filing_then_undo_restores_disk_witness :
  step (MoveCurrent "1") opened = (rejected_a, Done)
  ∧ current_item (app opened) = Some "/cv/a.pdf"
  ∧ disk opened !! "/cv/a.pdf" = Some File
  ∧ len (undo_stack (app opened)) < max_undo (config (app opened))
  ∧ undo false rejected_a = ((undo false rejected_a).1, Done)
  ∧ app (undo false rejected_a).1 = app opened
  ∧ only_dirs_made (disk opened) (disk (undo false rejected_a).1).
Proof.
  assert (step (MoveCurrent "1") opened = (rejected_a, Done)) as H1
    by (vm_compute; reflexivity).
  assert (current_item (app opened) = Some "/cv/a.pdf") as H2
    by (vm_compute; reflexivity).
  assert (disk opened !! "/cv/a.pdf" = Some File) as H3
    by (vm_compute; reflexivity).
  assert (len (undo_stack (app opened)) < max_undo (config (app opened))) as H4
    by (vm_compute; reflexivity).
  assert (undo false rejected_a = ((undo false rejected_a).1, Done)) as H5
    by (vm_compute; reflexivity).
  do 5 (split; [assumption|]).
  exact (filing_then_undo_restores_disk _ _ _ _ _ _ H1 H2 H3 H4 H5).
Defined.

(** X9. The lossy edge of [undo]: when the original location is occupied
    and the user declines to overwrite it, [undo] returns without a message;
    the entry it popped is gone from the ledger (the operation can no longer
    be undone), while the queue, the cursor, the state file and every file
    on disk stay as they are. *)
Theorem undo_declined_loses_entry w w' r rest op :
  undo_stack (app w) = rest ++ [op] →
  (Os.makedirs (disk w) (Py.dirname (op_src op))).2 = true →
  Os.path_exists (disk w) (op_dest op) = true →
  Os.path_exists (disk w) (op_src op) = true →
  undo false w = (w', r) →
  r = Returned
  ∧ undo_stack (app w') = rest
  ∧ cv_list (app w') = cv_list (app w)
  ∧ current_index (app w') = current_index (app w)
  ∧ state_file w' = state_file w
  ∧ only_dirs_made (disk w) (disk w').
Proof.
  intros Hstack Hok Hdest Hsrc. unfold undo.
  rewrite Hstack, list_pop_last_snoc. unfold restore. simpl.
  pose proof (makedirs_only_dirs (disk w) (Py.dirname (op_src op))) as Hdirs.
  destruct (Os.makedirs (disk w) (Py.dirname (op_src op))) as [fs1 ok].
  simpl in Hok, Hdirs. subst ok. simpl.
  rewrite (only_dirs_made_exists _ _ _ Hdirs Hdest).
  rewrite (only_dirs_made_exists _ _ _ Hdirs Hsrc). simpl.
  by intros [= <- <-].
Qed.

Lemma undo_declined_loses_entry_witness :
  undo_stack (app reoccupied) = [] ++ [reject_a]
  ∧ (Os.makedirs (disk reoccupied) (Py.dirname (op_src reject_a))).2 = true
  ∧ Os.path_exists (disk reoccupied) (op_dest reject_a) = true
  ∧ Os.path_exists (disk reoccupied) (op_src reject_a) = true
  ∧ undo false reoccupied
    = ((undo false reoccupied).1, (undo false reoccupied).2)
  ∧ (undo false reoccupied).2 = Returned
  ∧ undo_stack (app (undo false reoccupied).1) = [].
Proof.
  assert (undo_stack (app reoccupied) = [] ++ [reject_a]) as H1
    by (vm_compute; reflexivity).
  assert ((Os.makedirs (disk reoccupied) (Py.dirname (op_src reject_a))).2
          = true) as H2 by (vm_compute; reflexivity).
  assert (Os.path_exists (disk reoccupied) (op_dest reject_a) = true) as H3
    by (vm_compute; reflexivity).
  assert (Os.path_exists (disk reoccupied) (op_src reject_a) = true) as H4
    by (vm_compute; reflexivity).
  assert (undo false reoccupied
          = ((undo false reoccupied).1, (undo false reoccupied).2)) as H5
    by (vm_compute; reflexivity).
  do 5 (split; [assumption|]).
  destruct (undo_declined_loses_entry _ _ _ _ _ H1 H2 H3 H4 H5)
    as (Hr & Hstack & _).
  split; [exact Hr|exact Hstack].
Defined.

(** ** The name unique_dest picks *)

(** X10. [unique_dest] returns the first free candidate: the name itself
    when no file of that name exists in the directory, and otherwise
    [base_k.ext] for the least [k >= 1] that is free, every candidate before
    it being taken. *)
Theorem unique_dest_first_free fs directory name c :
  unique_dest fs directory name = Some c →
  ∃ j, c = candidate name j
       ∧ Os.path_exists fs (Py.join directory c) = false
       ∧ (∀ k, (k < j)%nat →
               Os.path_exists fs (Py.join directory (candidate name k)) = true)
       ∧ (Os.path_exists fs (Py.join directory name) = false → c = name).
Proof.
  rewrite unique_dest_unfold.
  intros (j & -> & _ & Hfree & Hbusy)%loop_Some.
  exists j. split; [done|]. split; [done|]. split.
  - intros k Hk. apply Hbusy. lia.
  - intros Hname. destruct j as [|j]; [done|].
    specialize (Hbusy 0%nat ltac:(lia)). simpl in Hbusy. congruence.
Qed.

Lemma unique_dest_first_free_witness :
  unique_dest two_cvs "/cv" "a.pdf" = Some "a_1.pdf"
  ∧ ∃ j, "a_1.pdf" = candidate "a.pdf" j
         ∧ Os.path_exists two_cvs (Py.join "/cv" "a_1.pdf") = false
         ∧ (∀ k, (k < j)%nat →
                 Os.path_exists two_cvs (Py.join "/cv" (candidate "a.pdf" k))
                 = true)
         ∧ (Os.path_exists two_cvs (Py.join "/cv" "a.pdf") = false →
            "a_1.pdf" = "a.pdf").
Proof.
  assert (unique_dest two_cvs "/cv" "a.pdf" = Some "a_1.pdf") as H1
    by (vm_compute; reflexivity).
  split; [assumption|].
  exact (unique_dest_first_free _ _ _ _ H1).
Defined.

(** ** The cursor *)

(** X11. After a successful [move_current] or [hold] the cursor is on the
    CV that followed the one filed away; when the last CV of the queue was
    filed it is on the one before; and there is no current CV when the queue
    has become empty. *)
Theorem step_cursor_moves_on a w w' :
  step a w = (w', Done) →
  ∃ pre x post,
    cv_list (app w) = pre ++ x :: post
    ∧ current_item (app w) = Some x
    ∧ cv_list (app w') = pre ++ post
    ∧ current_item (app w') = match post with
                              | y :: _ => Some y
                              | [] => last pre
                              end.
Proof.
  intros (src & op & fs & Hcur & -> & _ & _)%step_done.
  destruct (current_item_Some _ _ Hcur) as [Hrange Hlook].
  destruct (list_pop_middle _ _ _ (proj1 Hrange) Hlook)
    as (pre & post & Hcv & Hpre & Hpop).
  exists pre, src, post. split; [done|]. split; [done|].
  unfold record. rewrite app_save_session_state.
  unfold current_item, has_current. simpl. rewrite Hpop. split; [done|].
  pose proof (len_nonneg pre) as Hp. pose proof (len_nonneg post) as Hq.
  destruct post as [|y post].
  - rewrite app_nil_r. destruct pre as [|z pre _] using rev_ind; [done|].
    clear Hp. pose proof (len_nonneg pre) as Hp.
    rewrite len_app in Hpre. change (len [z]) with 1 in Hpre.
    assert (adjust_index (current_index (app w)) (pre ++ [z]) = len pre) as ->.
    { unfold adjust_index. destruct (pre ++ [z]) eqn:Heq; [by destruct pre|].
      rewrite <- Heq, len_app. change (len [z]) with 1.
      destruct (Z.leb_spec (len pre + 1) (current_index (app w))); lia. }
    rewrite last_snoc, bool_decide_eq_false_2 by (by destruct pre).
    rewrite len_app. change (len [z]) with 1.
    destruct (Z.leb_spec 0 (len pre)); [|lia].
    destruct (Z.ltb_spec (len pre) (len pre + 1)); [|lia]. simpl.
    unfold len. rewrite Nat2Z.id.
    by rewrite lookup_app_r, Nat.sub_diag.
  - clear Hq. pose proof (len_nonneg post) as Hq.
    assert (len (pre ++ y :: post) = len pre + 1 + len post) as Hlen.
    { rewrite len_app. unfold len. simpl. lia. }
    assert (adjust_index (current_index (app w)) (pre ++ y :: post) = len pre)
      as ->.
    { unfold adjust_index. destruct (pre ++ y :: post) eqn:Heq;
        [by destruct pre|].
      rewrite Hlen.
      destruct (Z.leb_spec (len pre + 1 + len post) (current_index (app w)));
        lia. }
    rewrite bool_decide_eq_false_2 by (by destruct pre).
    rewrite Hlen.
    destruct (Z.leb_spec 0 (len pre)); [|lia].
    destruct (Z.ltb_spec (len pre) (len pre + 1 + len post)); [|lia]. simpl.
    unfold len. rewrite Nat2Z.id.
    by rewrite lookup_app_r, Nat.sub_diag.
Qed.

Lemma step_cursor_moves_on_witness :
  step (MoveCurrent "1") opened = (rejected_a, Done)
  ∧ ∃ pre x post,
      cv_list (app opened) = pre ++ x :: post
      ∧ current_item (app opened) = Some x
      ∧ cv_list (app rejected_a) = pre ++ post
      ∧ current_item (app rejected_a) = match post with
                                        | y :: _ => Some y
                                        | [] => last pre
                                        end.
Proof.
  assert (step (MoveCurrent "1") opened = (rejected_a, Done)) as H1
    by (vm_compute; reflexivity).
  split; [assumption|].
  exact (step_cursor_moves_on _ _ _ H1).
Defined.

(** X12. A successful [undo] puts the file back into the queue at the
    position recorded when it was filed, or at the end when the queue has
    become shorter than that, keeps the order of the other CVs, and makes
    the restored CV the current one. *)
Theorem undo_selects_restored b w w' rest op :
  undo b w = (w', Done) →
  undo_stack (app w) = rest ++ [op] →
  0 ≤ op_position op →
  ∃ pre post,
    cv_list (app w) = pre ++ post
    ∧ len pre = Z.min (op_position op) (len (cv_list (app w)))
    ∧ cv_list (app w') = pre ++ op_src op :: post
    ∧ current_index (app w') = len pre
    ∧ current_item (app w') = Some (op_src op).
Proof.
  intros (rest' & op' & Hstack' & Hw')%undo_done Hstack Hpos.
  rewrite Hstack in Hstack'. apply app_inj_tail in Hstack' as [<- <-].
  simpl in Hw'.
  set (cv := cv_list (app w)) in *.
  pose proof (len_nonneg cv) as Hlen.
  set (i := if len cv <? op_position op then len cv else op_position op) in *.
  assert (i = Z.min (op_position op) (len cv) ∧ 0 ≤ i ≤ len cv) as [Hi Hrange].
  { unfold i. destruct (Z.ltb_spec (len cv) (op_position op)); lia. }
  assert (length (take (Z.to_nat i) cv) = Z.to_nat i) as Htake.
  { rewrite length_take. unfold len in *. lia. }
  exists (take (Z.to_nat i) cv), (drop (Z.to_nat i) cv).
  assert (list_insert_at i (op_src op) cv
          = take (Z.to_nat i) cv ++ op_src op :: drop (Z.to_nat i) cv) as Hins.
  { unfold list_insert_at. destruct (Z.ltb_spec i 0); [lia|].
    by rewrite Z.min_l by lia. }
  rewrite Hw'. simpl. rewrite Hins.
  split; [by rewrite take_drop|].
  assert (len (take (Z.to_nat i) cv) = i) as Hpre.
  { unfold len. rewrite Htake. lia. }
  split; [lia|]. split; [done|]. split; [lia|].
  unfold current_item, has_current. simpl.
  rewrite bool_decide_eq_false_2 by (by destruct (take _ _)). simpl.
  destruct (Z.leb_spec 0 i); [|lia].
  assert (len (take (Z.to_nat i) cv ++ op_src op :: drop (Z.to_nat i) cv)
          = i + 1 + len (drop (Z.to_nat i) cv)) as Hall.
  { rewrite len_app, Hpre. unfold len. simpl. lia. }
  rewrite Hall. pose proof (len_nonneg (drop (Z.to_nat i) cv)) as Hdrop.
  destruct (Z.ltb_spec i (i + 1 + len (drop (Z.to_nat i) cv))); [|lia]. simpl.
  rewrite lookup_app_r by lia. by rewrite Htake, Nat.sub_diag.
Qed.

Lemma undo_selects_restored_witness :
  undo false filed = ((undo false filed).1, Done)
  ∧ undo_stack (app filed) = [reject_a] ++ [hold_b]
  ∧ 0 ≤ op_position hold_b
  ∧ current_item (app (undo false filed).1) = Some "/cv/b.pdf".
Proof.
  assert (undo false filed = ((undo false filed).1, Done)) as H1
    by (vm_compute; reflexivity).
  assert (undo_stack (app filed) = [reject_a] ++ [hold_b]) as H2
    by (vm_compute; reflexivity).
  assert (0 ≤ op_position hold_b) as H3 by (vm_compute; discriminate).
  do 3 (split; [assumption|]).
  destruct (undo_selects_restored _ _ _ _ _ H1 H2 H3)
    as (pre & post & _ & _ & _ & _ & Hcur).
  exact Hcur.
Defined.

(** ** The size of the ledger *)

Lemma undo_ledger b w w' r :
  undo b w = (w', r) →
  config (app w') = config (app w)
  ∧ len (undo_stack (app w')) ≤ len (undo_stack (app w)).
Proof.
  unfold undo.
  destruct (list_pop_last _) as [[rest op]|] eqn:Hpop;
    [|by intros [= <- <-]].
  apply list_pop_last_Some in Hpop. rewrite Hpop, len_app.
  change (len [op]) with 1.
  unfold restore; simpl.
  destruct (Os.makedirs _ _) as [fs1 []]; simpl;
    [|intros [= <- <-]; simpl; split; [done|lia]].
  destruct (negb _); [intros [= <- <-]; simpl; split; [done|lia]|].
  destruct (Os.path_exists fs1 (op_src op)).
  - destruct b; [|intros [= <- <-]; simpl; split; [done|lia]].
    destruct (Os.remove _ _); [|intros [= <- <-]; simpl; split; [done|lia]].
    destruct (Os.move _ _ _); intros [= <- <-];
      rewrite ?app_save_session_state; simpl; split; (done || lia).
  - destruct (Os.move _ _ _); intros [= <- <-];
      rewrite ?app_save_session_state; simpl; split; (done || lia).
Qed.

(** X13. The ledger stays bounded: once it holds at most [max_undo] entries
    (none when [max_undo] is not positive), no operation of the organizer
    makes it longer than that; with [max_undo = 0] nothing can ever be
    undone. *)
Theorem ledger_stays_bounded w :
  len (undo_stack (app w)) ≤ Z.max 0 (max_undo (config (app w))) →
  ∀ w', ((∃ d, w' = (open_folder d w).1)
         ∨ (∃ a, w' = (step a w).1) ∨ (∃ b, w' = (undo b w).1)
         ∨ (∃ f, w' = (import_emails f w).1)
         ∨ (∃ p, w' = (export_csv p w).1.1)) →
        len (undo_stack (app w')) ≤ Z.max 0 (max_undo (config (app w'))).
Proof.
  intros Hbound w' Hop.
  assert (∀ d, len (undo_stack (app (open_folder d w).1))
               ≤ Z.max 0 (max_undo (config (app (open_folder d w).1)))) as Hopen.
  { intros d. unfold open_folder. case_bool_decide; [done|]. simpl.
    rewrite app_save_session_state. simpl. change (len []) with 0. lia. }
  destruct Hop as [[d ->]|[[a ->]|[[b ->]|[[f ->]|[p ->]]]]];
    [apply Hopen| | | |].
  - destruct (step a w) as [w1 r] eqn:Hstep. simpl.
    destruct (decide (r = Done)) as [->|Hr].
    + apply step_done in Hstep as (src & op & fs & _ & -> & _).
      unfold record. rewrite app_save_session_state. simpl.
      unfold push_bounded. rewrite len_app. change (len [op]) with 1.
      pose proof (len_nonneg (undo_stack (app w))) as Hlen.
      destruct (Z.ltb_spec (max_undo (config (app w)))
                           (len (undo_stack (app w)) + 1)) as [Hfull|Hroom];
        [|rewrite len_app; change (len [op]) with 1; lia].
      unfold len. rewrite length_drop, length_app. simpl.
      unfold len in *. lia.
    + destruct (step_not_done _ _ _ _ Hstep Hr) as [-> _]. done.
  - destruct (undo b w) as [w1 r] eqn:Hundo. simpl.
    destruct (undo_ledger _ _ _ _ Hundo) as [-> Hle]. lia.
  - destruct (import_emails f w) as [w1 r] eqn:Himp. simpl.
    unfold import_emails in Himp. case_bool_decide; [by injection Himp as <- <-|].
    destruct f as [f|]; [|by injection Himp as <- <-].
    destruct (fieldnames f); [|by injection Himp as <- <-].
    destruct (_ || _); [by injection Himp as <- <-|].
    destruct (import_rows _ _) as [i []]; injection Himp as <- <-;
      rewrite ?app_save_session_state; done.
  - unfold export_csv. case_bool_decide; [done|].
    destruct (negb _); [done|]. destruct (export_rows w); [done|].
    case_bool_decide; [done|]. by destruct (Os.write_file _ _).
Qed.

Lemma ledger_stays_bounded_witness :
  len (undo_stack (app opened)) ≤ Z.max 0 (max_undo (config (app opened)))
  ∧ len (undo_stack (app (step (MoveCurrent "1") opened).1))
    ≤ Z.max 0 (max_undo (config (app (step (MoveCurrent "1") opened).1))).
Proof.
  assert (len (undo_stack (app opened))
          ≤ Z.max 0 (max_undo (config (app opened)))) as H1
    by (vm_compute; discriminate).
  split; [assumption|].
  apply (ledger_stays_bounded _ H1).
  right. left. by exists (MoveCurrent "1").
Defined.

(** ** The session across a restart *)

(** X14. Closing and starting again loses nothing: in every world the
    application can reach with a folder open, saving the session and
    starting the application again (with whatever configuration is loaded)
    gives the same queue, cursor, ledger, base folder and imported
    addresses. *)
Theorem session_survives_restart w cfg :
  reachable w →
  base_folder (app w) ≠ "" →
  let o := app (startup cfg (save_session_state w)) in
  cv_list o = cv_list (app w)
  ∧ current_index o = current_index (app w)
  ∧ undo_stack o = undo_stack (app w)
  ∧ base_folder o = base_folder (app w)
  ∧ cand_email_map o = cand_email_map (app w)
  ∧ config o = cfg.
Proof.
  intros [[Hcursor _] _]%reachable_world_inv Hbase.
  unfold startup, save_session_state, load_session_state.
  rewrite bool_decide_eq_false_2 by done. simpl.
  split; [done|]. split; [|done].
  pose proof (len_nonneg (cv_list (app w))) as Hlen.
  unfold cursor_ok in Hcursor.
  destruct (Z.leb_spec (len (cv_list (app w))) (current_index (app w)))
    as [Hle|]; [|done].
  destruct (cv_list (app w)); [|lia]. change (len []) with 0 in Hle. lia.
Qed.

Lemma session_survives_restart_witness :
  reachable rejected_a
  ∧ base_folder (app rejected_a) ≠ ""
  ∧ cv_list (app (startup DEFAULT_CONFIG (save_session_state rejected_a)))
    = cv_list (app rejected_a).
Proof.
  assert (reachable rejected_a) as H1.
  { unfold rejected_a, opened.
    apply reach_move_current, reach_open_folder, reach_fresh. }
  assert (base_folder (app rejected_a) ≠ "") as H2
    by (vm_compute; discriminate).
  do 2 (split; [assumption|]).
  exact (proj1 (session_survives_restart _ DEFAULT_CONFIG H1 H2)).
Defined.

(** X15. [load_session_state] repairs every stored cursor that is not
    negative: afterwards it is a valid index into the restored queue (or -1
    when that is empty), and it is the stored one when that was valid. A
    negative stored cursor is installed as it is. *)
Theorem load_session_state_repairs_cursor w s :
  state_file w = Some s →
  let o := app (load_session_state w) in
  cv_list o = snap_cv_list s
  ∧ (cursor_ok (cv_list o) (current_index o)
     ↔ 0 ≤ snap_current_index s
       ∨ (snap_cv_list s = [] ∧ snap_current_index s = -1))
  ∧ (snap_current_index s < len (snap_cv_list s) →
     current_index o = snap_current_index s).
Proof.
  intros Hs. unfold load_session_state. rewrite Hs. simpl.
  split; [done|].
  pose proof (len_nonneg (snap_cv_list s)) as Hlen.
  destruct (Z.leb_spec (len (snap_cv_list s)) (snap_current_index s))
    as [Hle|Hlt].
  - split; [|lia]. unfold cursor_ok.
    destruct (snap_cv_list s) as [|x l] eqn:Hcv.
    + change (len []) with 0 in *. split; [lia|done].
    + assert (0 < len (x :: l)) by (unfold len; simpl; lia). split; lia.
  - split; [|done]. unfold cursor_ok.
    destruct (snap_cv_list s) as [|x l] eqn:Hcv.
    + change (len []) with 0 in *.
      split; [by right|]. intros [?|[_ ?]]; lia.
    + split; [lia|]. intros [?|[? _]]; [lia|done].
Qed.

Lemma load_session_state_repairs_cursor_witness :
  state_file stale_cursor_session = Some stale_cursor
  ∧ cursor_ok (cv_list (app (load_session_state stale_cursor_session)))
              (current_index (app (load_session_state stale_cursor_session))).
Proof.
  assert (state_file stale_cursor_session = Some stale_cursor) as H1
    by reflexivity.
  split; [assumption|].
  apply (proj1 (proj2 (load_session_state_repairs_cursor _ _ H1))).
  left. vm_compute. discriminate.
Defined.

(** ** The listing of open_folder *)




Lemma contains_char_startswith n :
  Py.contains_char Py.sep n = false → Py.startswith "/" n = false.
Proof.
  destruct n as [|c n]; [done|]. simpl.
  intros [Hc _]%orb_false_iff. apply bool_decide_eq_false in Hc.
  rewrite andb_true_r. apply bool_decide_eq_false. by intros <-.
Qed.




Lemma strip_prefix_app p r : Py.strip_prefix p (p +:+ r) = Some r.
Proof.
  induction p as [|c p IH]; [by destruct r|].
  rewrite string_app_cons. simpl. by rewrite bool_decide_eq_true_2.
Qed.

Lemma elem_of_listdir fs d n :
  n ∈ Os.listdir fs d
  ↔ n ≠ "" ∧ Py.contains_char Py.sep n = false
    ∧ is_Some (fs !! (Py.join d "" +:+ n)).
Proof.
  unfold Os.listdir. rewrite list_elem_of_omap. split.
  - intros (k & Hk & Hn). unfold Os.entry_name in Hn.
    destruct (Py.strip_prefix _ k) as [n'|] eqn:Hstrip; [|done].
    destruct (bool_decide (n' = "") || Py.contains_char Py.sep n') eqn:Hn';
      [done|].
    injection Hn as ->. apply strip_prefix_Some in Hstrip as ->.
    apply orb_false_iff in Hn' as [Hne Hslash].
    apply bool_decide_eq_false in Hne.
    split; [done|]. split; [done|].
    apply list_elem_of_fmap in Hk as ([k v] & -> & Hkv).
    apply elem_of_map_to_list in Hkv. by exists v.
  - intros (Hne & Hslash & [v Hv]). exists (Py.join d "" +:+ n). split.
    + apply list_elem_of_fmap. exists (Py.join d "" +:+ n, v).
      split; [done|]. by apply elem_of_map_to_list.
    + unfold Os.entry_name. rewrite strip_prefix_app, Hslash.
      by rewrite bool_decide_eq_false_2.
Qed.




(** ** The page on screen *)

Lemma viewer_page_in_range v :
  viewer_reachable v → has_doc v = true → 0 ≤ page_idx v < doc_len v.
Proof.
  induction 1 as [|fs path opened v _ IH|key ctrl v _ IH|v _ _]; try done.
  - unfold load_pdf.
    assert (has_doc (if has_doc v then {| doc := None; page_idx := page_idx v |}
                     else v) = false) as Hclosed.
    { by destruct (has_doc v) eqn:Hv. }
    destruct (_ || _); [by rewrite Hclosed|].
    destruct opened as [[|n]|]; [done| |by rewrite Hclosed].
    intros _. unfold doc_len. simpl. lia.
  - unfold keyPressEvent. destruct (has_doc v) eqn:Hv; simpl; [|by rewrite Hv].
    specialize (IH eq_refl).
    destruct key; try (intros _; exact IH).
    + destruct (Z.ltb_spec (page_idx v) (doc_len v - 1)); [|done].
      intros _. unfold doc_len in *. simpl. lia.
    + destruct (Z.ltb_spec 0 (page_idx v)); [|done].
      intros _. unfold doc_len in *. simpl. lia.
Qed.

(** X17. The viewer never shows "Invalid page number": whatever documents
    are loaded, keys pressed and documents dropped by [move_current] and
    [hold], the page index of an open document stays within its pages, so
    [show_page] either renders a page or reports that no document is
    loaded. *)
Theorem viewer_page_valid v :
  viewer_reachable v →
  show_page v ≠ InvalidPage
  ∧ (has_doc v = true → 0 ≤ page_idx v < doc_len v).
Proof.
  intros Hv. split; [|by apply viewer_page_in_range].
  unfold show_page. destruct (has_doc v) eqn:Hdoc; simpl; [|done].
  destruct (viewer_page_in_range v Hv Hdoc) as [Hlo Hhi].
  destruct (Z.leb_spec 0 (page_idx v)); [|lia].
  by destruct (Z.ltb_spec (page_idx v) (doc_len v)); [|lia].
Qed.

Lemma viewer_page_valid_witness :
  viewer_reachable second_page ∧ show_page second_page ≠ InvalidPage.
Proof.
  assert (viewer_reachable second_page) as H1.
  { unfold second_page. apply viewer_key, viewer_load, viewer_new. }
  split; [assumption|].
  exact (proj1 (viewer_page_valid _ H1)).
Defined.

(** ** The undo history *)

Lemma step_done_shape a w w' :
  step a w = (w', Done) →
  ∃ op fs, w' = record op fs w ∧ recorded_shape op.
Proof.
  assert (∀ kind reason dir src,
    (kind = Reject → is_Some reason) →
    file_away kind reason dir src w = (w', Done) →
    ∃ op fs, w' = record op fs w ∧ recorded_shape op) as Hfile.
  { intros kind reason dir src Hreason. unfold file_away.
    destruct (relocate kind reason dir src w) as [fs [op|]] eqn:Hrel; [|done].
    intros [= <-]. exists op, fs. split; [done|].
    unfold relocate in Hrel.
    destruct (Os.makedirs (disk w) dir) as [fs1 []]; simpl in Hrel; [|done].
    destruct (unique_dest fs1 dir (Py.basename src)); [|done].
    destruct (Os.move fs1 src _); [|done].
    injection Hrel as <- <-. by split. }
  destruct a as [k|]; simpl; unfold move_current, hold;
    destruct (current_item (app w)) as [src|]; try done.
  - destruct (assoc k _); [|done].
    destruct (negb _); [done|]. apply Hfile. by eexists.
  - destruct (negb _); [done|]. by apply Hfile.
Qed.

Lemma undo_pops b w w' r :
  undo b w = (w', r) →
  (∃ n, undo_stack (app w') = take n (undo_stack (app w)))
  ∧ state_file w'
    = (if bool_decide (r = Done) && negb (bool_decide (base_folder (app w') = ""))
       then Some (snapshot_of (app w')) else state_file w).
Proof.
  unfold undo.
  destruct (list_pop_last _) as [[rest op]|] eqn:Hpop.
  2:{ intros [= <- <-]. split; [|done].
      exists (length (undo_stack (app w))). by rewrite firstn_all. }
  apply list_pop_last_Some in Hpop. rewrite Hpop.
  assert (rest = take (length rest) (rest ++ [op])) as Hrest.
  { by rewrite take_app_length. }
  unfold restore; simpl.
  destruct (Os.makedirs _ _) as [fs1 []]; simpl;
    [|intros [= <- <-]; simpl; split; [by eexists|done]].
  destruct (negb _); [intros [= <- <-]; simpl; split; [by eexists|done]|].
  assert (∀ fs2,
    match Os.move fs2 (op_dest op) (op_src op) with
    | Some fs3 =>
        (save_session_state
           {| app := {| cv_list := list_insert_at
                          (if len (cv_list (app w)) <? op_position op
                           then len (cv_list (app w)) else op_position op)
                          (op_src op) (cv_list (app w));
                        current_index :=
                          if len (cv_list (app w)) <? op_position op
                          then len (cv_list (app w)) else op_position op;
                        undo_stack := rest;
                        base_folder := base_folder (app w);
                        cand_email_map := cand_email_map (app w);
                        config := config (app w) |};
              disk := fs3;
              state_file := state_file w |}, Done)
    | None =>
        (with_disk fs2
           {| app := with_undo_stack rest (app w); disk := disk w;
              state_file := state_file w |}, Critical "Error")
    end = (w', r) →
    (∃ n, undo_stack (app w') = take n (rest ++ [op]))
    ∧ state_file w'
      = (if bool_decide (r = Done)
            && negb (bool_decide (base_folder (app w') = ""))
         then Some (snapshot_of (app w')) else state_file w)) as Hmove.
  { intros fs2. destruct (Os.move fs2 _ _);
      intros [= <- <-]; [|simpl; split; [by eexists|done]].
    rewrite state_file_save_session_state, app_save_session_state. simpl.
    split; [by eexists|]. by case_bool_decide. }
  destruct (Os.path_exists fs1 (op_src op)).
  - destruct b; [|intros [= <- <-]; simpl; split; [by eexists|done]].
    destruct (Os.remove _ _);
      [apply Hmove|intros [= <- <-]; simpl; split; [by eexists|done]].
  - apply Hmove.
Qed.

Lemma reachable_recorded_shape w :
  reachable w →
  Forall recorded_shape (undo_stack (app w))
  ∧ ∀ s, state_file w = Some s → Forall recorded_shape (snap_undo_stack s).
Proof.
  assert (∀ w,
    Forall recorded_shape (undo_stack (app w)) →
    (∀ s, state_file w = Some s → Forall recorded_shape (snap_undo_stack s)) →
    Forall recorded_shape (undo_stack (app (save_session_state w)))
    ∧ ∀ s, state_file (save_session_state w) = Some s →
           Forall recorded_shape (snap_undo_stack s)) as Hsave.
  { intros w0 Hstack Hfile.
    rewrite app_save_session_state, state_file_save_session_state.
    split; [done|]. case_bool_decide; [done|]. by intros s [= <-]. }
  assert (∀ a w,
    Forall recorded_shape (undo_stack (app w)) →
    (∀ s, state_file w = Some s → Forall recorded_shape (snap_undo_stack s)) →
    Forall recorded_shape (undo_stack (app (step a w).1))
    ∧ ∀ s, state_file (step a w).1 = Some s →
           Forall recorded_shape (snap_undo_stack s)) as Hstep.
  { intros a w0 Hstack Hfile.
    destruct (step a w0) as [w1 r] eqn:Hstep. simpl.
    destruct (decide (r = Done)) as [->|Hr].
    - apply step_done_shape in Hstep as (op & fs & -> & Hop).
      apply Hsave; [|done]. simpl. unfold push_bounded.
      assert (Forall recorded_shape (undo_stack (app w0) ++ [op])) as Hall.
      { apply Forall_app. split; [done|]. by apply Forall_singleton. }
      destruct (_ <? _); [by apply Forall_drop|done].
    - by destruct (step_not_done _ _ _ _ Hstep Hr) as [-> ->]. }
  induction 1 as [cfg fs|d w _ [IHs IHf]|k w _ [IHs IHf]|w _ [IHs IHf]
                 |b w _ [IHs IHf]|f w _ [IHs IHf]|p w _ [IHs IHf]
                 |w _ [IHs IHf]|fs w _ [IHs IHf]|cfg w _ [IHs IHf]].
  - split; [constructor|done].
  - unfold open_folder. case_bool_decide; [done|]. simpl.
    apply Hsave; [constructor|done].
  - by apply (Hstep (MoveCurrent k)).
  - by apply (Hstep HoldCurrent).
  - destruct (undo b w) as [w1 r] eqn:Hundo. simpl.
    apply undo_pops in Hundo as [[n Hn] Hfile].
    assert (Forall recorded_shape (undo_stack (app w1))) as Hstack.
    { rewrite Hn. by apply Forall_take. }
    split; [done|]. rewrite Hfile.
    destruct (_ && _); [by intros s [= <-]|done].
  - unfold import_emails. case_bool_decide; [done|].
    destruct f as [f|]; [|done].
    destruct (fieldnames f); [|done].
    destruct (_ || _); [done|].
    destruct (import_rows _ _) as [i []]; simpl; [by apply Hsave|done].
  - unfold export_csv. case_bool_decide; [done|].
    destruct (negb _); [done|]. destruct (export_rows w); [done|].
    case_bool_decide; [done|]. by destruct (Os.write_file _ _).
  - by apply Hsave.
  - done.
  - unfold startup, load_session_state. simpl.
    destruct (state_file w) as [s|] eqn:Hs; simpl.
    + split; [by apply IHf|]. intros s' Hs'. by apply IHf.
    + split; [constructor|]. by intros s' [=].
Qed.

Lemma history_loop_total cfg ops :
  Forall recorded_shape ops →
  ∀ i history, is_Some (history_loop cfg i ops history).
Proof.
  induction 1 as [|op ops [Hreason _] _ IH]; intros i history; [by eexists|].
  simpl. unfold history_item.
  destruct (op_type op); [|apply IH].
  destruct (Hreason eq_refl) as [k ->]. apply IH.
Qed.

(** X18. [show_history] never fails on a ledger the application built: in
    every reachable world each entry carries what the history reads (a
    rejection has its reason key, looked up only for rejections), so the
    message box gets a text. *)
Theorem show_history_never_raises w :
  reachable w → is_Some (show_history (app w)).
Proof.
  intros [Hstack _]%reachable_recorded_shape. unfold show_history.
  destruct (undo_stack (app w)) as [|op ops] eqn:Hops; [by eexists|].
  apply history_loop_total. unfold keep_last. by apply Forall_drop.
Qed.

Lemma show_history_never_raises_witness :
  reachable (hold rejected_a).1
  ∧ is_Some (show_history (app (hold rejected_a).1)).
Proof.
  assert (reachable (hold rejected_a).1) as H1.
  { unfold rejected_a, opened.
    apply reach_hold, reach_move_current, reach_open_folder, reach_fresh. }
  split; [assumption|].
  exact (show_history_never_raises _ H1).
Defined.

(** ** The configuration file *)


(** ** What export_csv writes *)

Lemma join_prefix d n :
  Py.startswith "/" n = false → Py.join d n = Py.join d "" +:+ n.
Proof.
  intros Hn. unfold Py.join. rewrite Hn. simpl.
  destruct (_ || _).
  - by rewrite string_app_nil_r.
  - by rewrite string_app_assoc.
Qed.

Lemma elem_of_export_rows w row :
  row ∈ export_rows w
  ↔ let dir := Py.join (Py.join (base_folder (app w)) "Rejected")
                       (ReasonText row) in
    (ReasonKey row, ReasonText row) ∈ reason_map (config (app w))
    ∧ Os.isdir (disk w) dir = true
    ∧ Filename row ≠ ""
    ∧ Py.contains_char Py.sep (Filename row) = false
    ∧ Os.path_exists (disk w) (Py.join dir (Filename row)) = true
    ∧ Py.endswith (Py.lower (Filename row)) ".pdf" = true
    ∧ Email row = lookup_email (app w) (Py.splitext (Filename row)).1.
Proof.
  unfold export_rows. rewrite list_elem_of_bind. split.
  - intros ([key folder] & Hrow & Hentry). unfold folder_rows in Hrow.
    destruct (Os.isdir _ _) eqn:Hdir; [|by apply elem_of_nil in Hrow].
    apply list_elem_of_fmap in Hrow as (fname & -> & Hf).
    apply list_elem_of_filter in Hf as [Hpdf Hlist].
    apply elem_of_listdir in Hlist as (Hne & Hslash & Hsome). simpl.
    rewrite (join_prefix _ fname) by by apply contains_char_startswith.
    repeat (split; [done|]). split; [by apply bool_decide_eq_true|].
    split; [by apply Is_true_true|done].
  - destruct row as [fname key folder email]. simpl.
    intros (Hentry & Hdir & Hne & Hslash & Hsome & Hpdf & ->).
    exists (key, folder). split; [|done]. unfold folder_rows. rewrite Hdir.
    apply list_elem_of_fmap. exists fname. split; [done|].
    apply list_elem_of_filter. split; [by apply Is_true_true|].
    apply elem_of_listdir. split; [done|]. split; [done|].
    rewrite (join_prefix _ fname) in Hsome
      by by apply contains_char_startswith.
    by apply bool_decide_eq_true in Hsome.
Qed.

(** X20. [export_csv] reads the session and writes at most one file: the
    organizer and the state file are never changed; unless it reports Export
    Complete the disk is unchanged and no row is written; and when it does,
    the only change on disk is the CSV file (the chosen name, with [.csv]
    appended unless it ends so in any case). Every row written names an
    entry that exists in the folder [base/Rejected/ReasonText] of a
    configured reason [(ReasonKey, ReasonText)], its name ends in [.pdf] in
    any case, and its Email is what [lookup_email] finds for the name
    without extension. *)
Theorem export_csv_rows p w w' r rows :
  export_csv p w = (w', r, rows) →
  app w' = app w ∧ state_file w' = state_file w
  ∧ (r ≠ Information "Export Complete" → disk w' = disk w ∧ rows = [])
  ∧ (r = Information "Export Complete" →
     p ≠ "" ∧ rows ≠ [] ∧ rows = export_rows w
     ∧ disk w' = <[(if Py.endswith (Py.lower p) ".csv" then p
                    else p +:+ ".csv") := File]> (disk w))
  ∧ ∀ row, row ∈ rows →
      let dir := Py.join (Py.join (base_folder (app w)) "Rejected")
                         (ReasonText row) in
      (ReasonKey row, ReasonText row) ∈ reason_map (config (app w))
      ∧ Os.isdir (disk w) dir = true
      ∧ Os.path_exists (disk w) (Py.join dir (Filename row)) = true
      ∧ Py.endswith (Py.lower (Filename row)) ".pdf" = true
      ∧ Email row = lookup_email (app w) (Py.splitext (Filename row)).1.
Proof.
  assert (∀ r0, r0 ≠ Information "Export Complete" →
    (w, r0, []) = (w', r, rows) →
    app w' = app w ∧ state_file w' = state_file w
    ∧ (r ≠ Information "Export Complete" → disk w' = disk w ∧ rows = [])
    ∧ (r = Information "Export Complete" →
       p ≠ "" ∧ rows ≠ [] ∧ rows = export_rows w
       ∧ disk w' = <[(if Py.endswith (Py.lower p) ".csv" then p
                      else p +:+ ".csv") := File]> (disk w))
    ∧ ∀ row, row ∈ rows →
        let dir := Py.join (Py.join (base_folder (app w)) "Rejected")
                           (ReasonText row) in
        (ReasonKey row, ReasonText row) ∈ reason_map (config (app w))
        ∧ Os.isdir (disk w) dir = true
        ∧ Os.path_exists (disk w) (Py.join dir (Filename row)) = true
        ∧ Py.endswith (Py.lower (Filename row)) ".pdf" = true
        ∧ Email row = lookup_email (app w) (Py.splitext (Filename row)).1)
    as Hnothing.
  { intros r0 Hr0 [= <- <- <-]. repeat (split; [done|]).
    intros row Hrow. by apply elem_of_nil in Hrow. }
  unfold export_csv. case_bool_decide; [by apply Hnothing|].
  destruct (negb _); [by apply Hnothing|].
  destruct (export_rows w) as [|row0 rows0] eqn:Hrows; [by apply Hnothing|].
  case_bool_decide as Hp; [by apply Hnothing|].
  unfold Os.write_file. destruct (_ && _); [|by apply Hnothing].
  intros [= <- <- <-]. simpl.
  repeat (split; [done|]).
  intros row Hrow. rewrite <- Hrows in Hrow.
  apply elem_of_export_rows in Hrow.
  by destruct Hrow as (? & ? & _ & _ & ? & ? & ?).
Qed.

Lemma export_csv_rows_witness :
  export_csv "/cv/out" jane_rejected
  = ((export_csv "/cv/out" jane_rejected).1.1,
     Information "Export Complete",
     (export_csv "/cv/out" jane_rejected).2)
  ∧ app (export_csv "/cv/out" jane_rejected).1.1 = app jane_rejected
  ∧ disk (export_csv "/cv/out" jane_rejected).1.1
    = <["/cv/out.csv" := File]> (disk jane_rejected).
Proof.
  assert (export_csv "/cv/out" jane_rejected
          = ((export_csv "/cv/out" jane_rejected).1.1,
             Information "Export Complete",
             (export_csv "/cv/out" jane_rejected).2)) as H1
    by (vm_compute; reflexivity).
  split; [assumption|].
  destruct (export_csv_rows _ _ _ _ _ H1) as (Happ & _ & _ & Hdone & _).
  split; [exact Happ|].
  destruct (Hdone eq_refl) as (_ & _ & _ & Hdisk). exact Hdisk.
Defined.

(** ** The state file after an operation *)


